(** * DocJays implementation orchestrator: a shallow embedding

    Source: [scripts/run-docjays-phases.py].  The script drives seven
    phases, each an external command, one after the other; it keeps a list
    of [PhaseResult] records, rewrites a JSON progress file after every
    phase and writes a report at the end of a run.

    The embedding keeps the source's names.  Python code that threads
    [self] and may raise becomes a state-and-exception monad over the
    orchestrator object; everything outside the script (the wall clock, the
    text of timestamps, what happens to the child process) is read from an
    explicit [World]. *)

From Stdlib Require Import ZArith List String Ascii Bool Lia.
Import ListNotations.

Local Open Scope string_scope.
Local Open Scope Z_scope.

(** ** Text: the pieces of [str] the script uses *)

Module Text.

Definition digit_char (d : Z) : ascii := ascii_of_nat (48 + Z.to_nat d).

Definition is_digit (c : ascii) : bool :=
  ((48 <=? nat_of_ascii c) && (nat_of_ascii c <=? 57))%nat.

Definition digit_value (c : ascii) : Z := Z.of_nat (nat_of_ascii c) - 48.

(** [str.isspace] on the ASCII range: TAB..CR, FS..US and the blank. *)
Definition is_space (c : ascii) : bool :=
  let n := nat_of_ascii c in
  (((9 <=? n) && (n <=? 13)) || ((28 <=? n) && (n <=? 32)))%nat.

(** Decimal digits of a non-negative number, most significant first. *)
Fixpoint digits (fuel : nat) (n : Z) : string :=
  match fuel with
  | O => String (digit_char (n mod 10)) EmptyString
  | S fuel' =>
      if n <? 10 then String (digit_char n) EmptyString
      else digits fuel' (n / 10) ++ String (digit_char (n mod 10)) EmptyString
  end.

(** [str(n)] for an [int], also what an f-string prints for it. *)
Definition str (n : Z) : string :=
  match n with
  | Z0 => "0"
  | Zpos p => digits (Pos.size_nat p) n
  | Zneg p => String "-" (digits (Pos.size_nat p) (Zpos p))
  end.

(** What [str] prints for a number that is not negative. *)
Definition unsigned (n : Z) : string :=
  match n with
  | Zpos p => digits (Pos.size_nat p) n
  | _ => "0"
  end.

(** [s.lower()], on ASCII letters. *)
Definition lower_char (c : ascii) : ascii :=
  let n := nat_of_ascii c in
  if ((65 <=? n) && (n <=? 90))%nat then ascii_of_nat (n + 32) else c.

Fixpoint lower (s : string) : string :=
  match s with
  | EmptyString => EmptyString
  | String c s' => String (lower_char c) (lower s')
  end.

(** [sep in s] for a one-character [sep]. *)
Fixpoint contains (sep : ascii) (s : string) : bool :=
  match s with
  | EmptyString => false
  | String c s' => Ascii.eqb c sep || contains sep s'
  end.

(** [s.split(sep)] for a one-character [sep]: never the empty list. *)
Fixpoint split (sep : ascii) (s : string) : list string :=
  match s with
  | EmptyString => [EmptyString]
  | String c s' =>
      if Ascii.eqb c sep then EmptyString :: split sep s'
      else match split sep s' with
           | [] => [String c EmptyString]
           | w :: ws => String c w :: ws
           end
  end.

Fixpoint lstrip (s : string) : string :=
  match s with
  | EmptyString => EmptyString
  | String c s' => if is_space c then lstrip s' else s
  end.

Fixpoint rstrip (s : string) : string :=
  match s with
  | EmptyString => EmptyString
  | String c s' =>
      match rstrip s' with
      | EmptyString => if is_space c then EmptyString else String c EmptyString
      | t => String c t
      end
  end.

Definition strip (s : string) : string := rstrip (lstrip s).

(** The digit part of an integer literal: decimal digits, where a single
    underscore may stand between two digits.  [after_digit] says whether
    the character just read was a digit. *)
Fixpoint literal_value (acc : Z) (after_digit : bool) (s : string) : option Z :=
  match s with
  | EmptyString => if after_digit then Some acc else None
  | String c s' =>
      if is_digit c then literal_value (acc * 10 + digit_value c) true s'
      else if Ascii.eqb c "_" then
             if after_digit then literal_value acc false s' else None
           else None
  end.

(** [int(s)]: [None] stands for the [ValueError] of a malformed literal.
    Blanks around the literal, a sign and underscores between digits are
    read as Python reads them; digits are the ASCII ones. *)
Definition int (s : string) : option Z :=
  match strip s with
  | EmptyString => None
  | String c r =>
      if Ascii.eqb c "+" then literal_value 0 false r
      else if Ascii.eqb c "-" then option_map Z.opp (literal_value 0 false r)
      else literal_value 0 false (String c r)
  end.

(** Every character of [s] passes [f]. *)
Fixpoint all (f : ascii -> bool) (s : string) : bool :=
  match s with
  | EmptyString => true
  | String c s' => f c && all f s'
  end.

End Text.

(** ** Data model *)

(** [class PhaseStatus(Enum)] with the [value] of each member. *)
Inductive PhaseStatus : Type :=
| PENDING
| IN_PROGRESS
| COMPLETED
| FAILED
| SKIPPED.

Definition PhaseStatus_value (s : PhaseStatus) : string :=
  match s with
  | PENDING => "pending"
  | IN_PROGRESS => "in_progress"
  | COMPLETED => "completed"
  | FAILED => "failed"
  | SKIPPED => "skipped"
  end.

(** [PhaseStatus(v)]: lookup by value, [None] for the [ValueError]. *)
Definition PhaseStatus_of_value (v : string) : option PhaseStatus :=
  if String.eqb v "pending" then Some PENDING
  else if String.eqb v "in_progress" then Some IN_PROGRESS
  else if String.eqb v "completed" then Some COMPLETED
  else if String.eqb v "failed" then Some FAILED
  else if String.eqb v "skipped" then Some SKIPPED
  else None.

Definition PhaseStatus_eqb (a b : PhaseStatus) : bool :=
  match a, b with
  | PENDING, PENDING | IN_PROGRESS, IN_PROGRESS | COMPLETED, COMPLETED
  | FAILED, FAILED | SKIPPED, SKIPPED => true
  | _, _ => false
  end.

(** A float number of seconds.  The only floats of the script are
    [timedelta.total_seconds()] values; the model keeps the timedelta's exact
    count of microseconds, of which the float is the nearest double to the
    count divided by 10^6. *)
Definition float_seconds : Type := Z.

(** [@dataclass class PhaseResult].  Timestamps are ISO-8601 text, as in the
    source. *)
Record PhaseResult : Type := mkPhaseResult {
  phase_number : Z;
  phase_name : string;
  status : PhaseStatus;
  start_time : option string;
  end_time : option string;
  duration_seconds : option float_seconds;
  error_message : option string;
  command_used : option string;
  output_file : option string
}.

(** [PhaseResult(phase_number=.., phase_name=.., status=..)]: the six
    optional fields default to [None]. *)
Definition new_PhaseResult (n : Z) (name : string) (s : PhaseStatus) : PhaseResult :=
  mkPhaseResult n name s None None None None None None.

(** Attribute assignments [result.f = v]. *)
Definition set_status (v : PhaseStatus) (r : PhaseResult) : PhaseResult :=
  mkPhaseResult (phase_number r) (phase_name r) v (start_time r) (end_time r)
    (duration_seconds r) (error_message r) (command_used r) (output_file r).

Definition set_start_time (v : string) (r : PhaseResult) : PhaseResult :=
  mkPhaseResult (phase_number r) (phase_name r) (status r) (Some v) (end_time r)
    (duration_seconds r) (error_message r) (command_used r) (output_file r).

Definition set_end_time (v : string) (r : PhaseResult) : PhaseResult :=
  mkPhaseResult (phase_number r) (phase_name r) (status r) (start_time r) (Some v)
    (duration_seconds r) (error_message r) (command_used r) (output_file r).

Definition set_duration_seconds (v : float_seconds) (r : PhaseResult) : PhaseResult :=
  mkPhaseResult (phase_number r) (phase_name r) (status r) (start_time r) (end_time r)
    (Some v) (error_message r) (command_used r) (output_file r).

Definition set_error_message (v : string) (r : PhaseResult) : PhaseResult :=
  mkPhaseResult (phase_number r) (phase_name r) (status r) (start_time r) (end_time r)
    (duration_seconds r) (Some v) (command_used r) (output_file r).

Definition set_command_used (v : string) (r : PhaseResult) : PhaseResult :=
  mkPhaseResult (phase_number r) (phase_name r) (status r) (start_time r) (end_time r)
    (duration_seconds r) (error_message r) (Some v) (output_file r).

Definition set_output_file (v : string) (r : PhaseResult) : PhaseResult :=
  mkPhaseResult (phase_number r) (phase_name r) (status r) (start_time r) (end_time r)
    (duration_seconds r) (error_message r) (command_used r) (Some v).

(** The dataclass's generated [__eq__]: field by field. *)
Definition option_eqb {A : Type} (eqb : A -> A -> bool) (a b : option A) : bool :=
  match a, b with
  | Some x, Some y => eqb x y
  | None, None => true
  | _, _ => false
  end.

Definition PhaseResult_eqb (a b : PhaseResult) : bool :=
  (phase_number a =? phase_number b)
  && String.eqb (phase_name a) (phase_name b)
  && PhaseStatus_eqb (status a) (status b)
  && option_eqb String.eqb (start_time a) (start_time b)
  && option_eqb String.eqb (end_time a) (end_time b)
  && option_eqb Z.eqb (duration_seconds a) (duration_seconds b)
  && option_eqb String.eqb (error_message a) (error_message b)
  && option_eqb String.eqb (command_used a) (command_used b)
  && option_eqb String.eqb (output_file a) (output_file b).

(** [list.remove(x)]: drops the first element equal to [x]. *)
Fixpoint list_remove (x : PhaseResult) (l : list PhaseResult) : list PhaseResult :=
  match l with
  | [] => []
  | y :: l' => if PhaseResult_eqb y x then l' else y :: list_remove x l'
  end.

(** ** The phase catalog *)

Record PhaseInfo : Type := mkPhaseInfo {
  name : string;
  command : string;
  duration_estimate : string;
  description : string
}.

(** [DocJaysOrchestrator.PHASES], a dict in insertion order. *)
Definition PHASES : list (Z * PhaseInfo) :=
  [ (1, mkPhaseInfo "Database Foundation" "docjays-phase1" "1-2 weeks"
         "Enhanced schema with taxonomy, lifecycle tracking, usage metadata");
    (2, mkPhaseInfo "Lifecycle Management APIs" "docjays-phase2" "1-2 weeks"
         "Grounding API with metadata, approval workflow, lifecycle operations");
    (3, mkPhaseInfo "Compliance Checking" "docjays-phase3" "1-2 weeks"
         "Real-time constraint enforcement, LLM-based compliance analysis");
    (4, mkPhaseInfo "Decision Extraction" "docjays-phase4" "1-2 weeks"
         "Auto-extract decisions from PRs, commits, documents");
    (5, mkPhaseInfo "UI Enhancement" "docjays-phase5" "1-2 weeks"
         "Governance dashboard, grounding modal, compliance UI");
    (6, mkPhaseInfo "MCP & CLI Tools" "docjays-phase6" "1-2 weeks"
         "Enhanced MCP tools, CLI commands, workflow integration");
    (7, mkPhaseInfo "Testing & Deployment" "docjays-phase7" "1-2 weeks"
         "Comprehensive testing, gradual rollout, monitoring") ].

(** [PHASES.get(k)] *)
Definition PHASES_get (k : Z) : option PhaseInfo :=
  option_map snd (find (fun kv => fst kv =? k) PHASES).

(** [PHASES.keys()] *)
Definition PHASES_keys : list Z := map fst PHASES.

(** [k in PHASES] *)
Definition PHASES_mem (k : Z) : bool := existsb (Z.eqb k) PHASES_keys.

(** [range(a, b)] *)
Definition range (a b : Z) : list Z :=
  map (fun i => a + Z.of_nat i) (seq 0 (Z.to_nat (b - a))).

(** [max(l)] of a non-empty list; [d] for the empty one, which the script
    never asks for. *)
Definition list_max (d : Z) (l : list Z) : Z :=
  match l with
  | [] => d
  | x :: l' => fold_left Z.max l' x
  end.

(** ** JSON documents, as [json.load] returns and [json.dump] takes them *)

Unset Elimination Schemes.
Inductive json : Type :=
| JNull
| JBool (b : bool)
| JInt (n : Z)
| JFloat (x : float_seconds)
| JStr (s : string)
| JList (items : list json)
| JObj (fields : list (string * json)).
Set Elimination Schemes.

(** [d.get(k)] on a dict: [None] when the key is missing. *)
Fixpoint dict_get (k : string) (fields : list (string * json)) : option json :=
  match fields with
  | [] => None
  | (k', v) :: rest => if String.eqb k' k then Some v else dict_get k rest
  end.

(** ** Exceptions and outcomes *)

Inductive exn : Type :=
| ValueError (msg : string)
| KeyError (key : string)
| TypeError (msg : string)
| AttributeError (msg : string)
| OSError (msg : string)
| KeyboardInterrupt.

(** [except Exception] catches everything but [KeyboardInterrupt], which
    derives from [BaseException] only. *)
Definition is_Exception (e : exn) : bool :=
  match e with
  | KeyboardInterrupt => false
  | _ => true
  end.

(** [str(e)] *)
Definition exn_str (e : exn) : string :=
  match e with
  | ValueError m | TypeError m | AttributeError m | OSError m => m
  | KeyError k => "'" ++ k ++ "'"
  | KeyboardInterrupt => ""
  end.

Inductive outcome (A : Type) : Type :=
| Returned (a : A)
| Raised (e : exn).

Arguments Returned {A} a.
Arguments Raised {A} e.

(** ** The world outside the script *)

(** What the [try] block of [execute_phase] meets when it runs a phase's
    command. *)
Inductive Attempt : Type :=
| PopenRaises (msg : string)   (* [subprocess.Popen] raises: no child *)
| OpenRaises (msg : string)    (* the child runs, [open(output_file, 'w')] raises *)
| Exits (return_code : Z)      (* output copied to the log, [process.wait()] returns *)
| Interrupted.                 (* Ctrl-C while the output is being copied *)

Record World : Type := mkWorld {
  clock : nat -> Z;                   (* successive readings of [datetime.now()], in microseconds *)
  isoformat : Z -> string;            (* [datetime.isoformat] *)
  fromisoformat : string -> option Z; (* [datetime.fromisoformat], [None] for its [ValueError] *)
  strftime : Z -> string;             (* [strftime('%Y%m%d_%H%M%S')] *)
  process : Z -> Attempt              (* the fate of each phase's command *)
}.

(** Console lines that matter to the run's protocol. *)
Inductive message : Type :=
| PhasesToRun (plan : list Z)
| NotFoundSkipping (phase_num : Z)
| AlreadyCompleted (phase_num : Z)
| WouldExecute (command : string)
| StoppingDueToFailure (phase_num : Z)
| ResumeHint (next : Z)
| Resuming (phase_num : Z) (remaining_phases : list Z)
| Interrupted_by_user
| FatalError (text : string)
| MarkerNotFound.

(** Effects on the outside, in the order they happen. *)
Inductive event : Type :=
| Print (m : message)
| Popen (phase_num : Z) (command : string)   (* a child process is created *)
| LogFile (phase_num : Z) (path : string)    (* a per-phase log file is created *)
| ProgressWritten (data : json)        (* the progress file is rewritten *)
| ReportWritten (path : string) (total completed failed skipped : nat)
                (rs : list PhaseResult)
| Sleep (seconds : Z).

(** The orchestrator object, with the part of the file system it owns. *)
Record Orchestrator : Type := mkOrchestrator {
  dry_run : bool;
  results : list PhaseResult;
  progress_file : option json;   (* content of scripts/docjays-progress.json, if the file exists *)
  ticks : nat;                   (* clock readings taken so far *)
  trace : list event
}.

(** ** The monad of methods: state [self], may raise *)

Definition M (A : Type) : Type := Orchestrator -> outcome A * Orchestrator.

Definition ret {A : Type} (a : A) : M A := fun self => (Returned a, self).

Definition bind {A B : Type} (c : M A) (k : A -> M B) : M B :=
  fun self =>
    match c self with
    | (Returned a, self') => k a self'
    | (Raised e, self') => (Raised e, self')
    end.

Definition raise {A : Type} (e : exn) : M A := fun self => (Raised e, self).

Definition gets {A : Type} (f : Orchestrator -> A) : M A :=
  fun self => (Returned (f self), self).

Definition set_results (rs : list PhaseResult) : M unit :=
  fun self =>
    (Returned tt,
     mkOrchestrator (dry_run self) rs (progress_file self) (ticks self) (trace self)).

Definition set_progress_file (data : json) : M unit :=
  fun self =>
    (Returned tt,
     mkOrchestrator (dry_run self) (results self) (Some data) (ticks self) (trace self)).

Definition emit (e : event) : M unit :=
  fun self =>
    (Returned tt,
     mkOrchestrator (dry_run self) (results self) (progress_file self) (ticks self)
       (trace self ++ [e])%list).

Declare Scope monad_scope.
Delimit Scope monad_scope with monad.
Notation "x <- c ;; k" := (bind c (fun x => k))
  (at level 100, c at next level, right associativity) : monad_scope.
Notation "c ;; k" := (bind c (fun _ => k))
  (at level 100, right associativity) : monad_scope.
Local Open Scope monad_scope.

(** [for x in l: body(x)] *)
Fixpoint for_each {A : Type} (body : A -> M unit) (l : list A) : M unit :=
  match l with
  | [] => ret tt
  | x :: l' => body x ;; for_each body l'
  end.

(** [f"{x:.2f}"] for an [Optional[float]]: formatting [None] raises. *)
Definition format_2f (x : option float_seconds) : M unit :=
  match x with
  | Some _ => ret tt
  | None => raise (TypeError "unsupported format string passed to NoneType.__format__")
  end.

(** ** The progress file *)

Definition json_of_option {A : Type} (f : A -> json) (x : option A) : json :=
  match x with
  | Some a => f a
  | None => JNull
  end.

(** One entry of ['results'] in [save_progress]. *)
Definition result_to_json (r : PhaseResult) : json :=
  JObj [ ("phase_number", JInt (phase_number r));
         ("phase_name", JStr (phase_name r));
         ("status", JStr (PhaseStatus_value (status r)));
         ("start_time", json_of_option JStr (start_time r));
         ("end_time", json_of_option JStr (end_time r));
         ("duration_seconds", json_of_option JFloat (duration_seconds r));
         ("error_message", json_of_option JStr (error_message r));
         ("command_used", json_of_option JStr (command_used r));
         ("output_file", json_of_option JStr (output_file r)) ].

(** The document [save_progress] dumps. *)
Definition progress_data (last_updated : string) (rs : list PhaseResult) : json :=
  JObj [ ("last_updated", JStr last_updated);
         ("results", JList (map result_to_json rs)) ].

(** Reading a field back.  [PhaseResult(...)] in [load_progress] takes
    whatever JSON value it finds, and the script carries it along
    unchecked.  The record here is typed: the model covers the progress
    files whose fields hold values of the types the dataclass declares
    ([typed_data] below), as every file the script writes does.  On a
    value of another type the functions below answer [TypeError] (and
    [as_status] a [ValueError] without the value's text), which is not
    what the script does; what is proved about files that fail to load is
    stated for typed files. *)
Definition required (k : string) (fields : list (string * json)) : outcome json :=
  match dict_get k fields with
  | Some v => Returned v
  | None => Raised (KeyError k)
  end.

Definition as_int (v : json) : outcome Z :=
  match v with
  | JInt n => Returned n
  | _ => Raised (TypeError "phase_number is not an int")
  end.

Definition as_str (v : json) : outcome string :=
  match v with
  | JStr s => Returned s
  | _ => Raised (TypeError "not a str")
  end.

Definition as_status (v : json) : outcome PhaseStatus :=
  match v with
  | JStr s =>
      match PhaseStatus_of_value s with
      | Some st => Returned st
      | None => Raised (ValueError ("'" ++ s ++ "' is not a valid PhaseStatus"))
      end
  | _ => Raised (ValueError "not a valid PhaseStatus")
  end.

(** [r.get(k)] for an optional text field. *)
Definition optional_str (k : string) (fields : list (string * json)) : outcome (option string) :=
  match dict_get k fields with
  | None | Some JNull => Returned None
  | Some (JStr s) => Returned (Some s)
  | Some _ => Raised (TypeError (k ++ " is not a str"))
  end.

Definition optional_float (k : string) (fields : list (string * json))
  : outcome (option float_seconds) :=
  match dict_get k fields with
  | None | Some JNull => Returned None
  | Some (JFloat x) => Returned (Some x)
  | Some _ => Raised (TypeError (k ++ " is not a float"))
  end.

Definition obind {A B : Type} (c : outcome A) (k : A -> outcome B) : outcome B :=
  match c with
  | Returned a => k a
  | Raised e => Raised e
  end.

(** One [PhaseResult(...)] of the comprehension in [load_progress]; the
    keyword arguments are evaluated in the order written. *)
Definition result_of_json (r : json) : outcome PhaseResult :=
  match r with
  | JObj fields =>
      obind (obind (required "phase_number" fields) as_int) (fun n =>
      obind (obind (required "phase_name" fields) as_str) (fun nm =>
      obind (obind (required "status" fields) as_status) (fun st =>
      obind (optional_str "start_time" fields) (fun t0 =>
      obind (optional_str "end_time" fields) (fun t1 =>
      obind (optional_float "duration_seconds" fields) (fun d =>
      obind (optional_str "error_message" fields) (fun err =>
      obind (optional_str "command_used" fields) (fun cmd =>
      obind (optional_str "output_file" fields) (fun out =>
      Returned (mkPhaseResult n nm st t0 t1 d err cmd out))))))))))
  | _ => Raised (TypeError "a result is not an object")
  end.

Fixpoint results_of_list (items : list json) : outcome (list PhaseResult) :=
  match items with
  | [] => Returned []
  | r :: rest =>
      obind (result_of_json r) (fun x =>
      obind (results_of_list rest) (fun xs => Returned (x :: xs)))
  end.

(** The list [load_progress] assigns to [self.results] for a document
    [data]: [data.get('results', [])], entry by entry.  The [for] takes
    whatever can be iterated: an empty dict or an empty str gives no
    entries; the entries of any other dict are its keys and those of any
    other str its characters, which cannot be indexed by ['phase_number'];
    a number, a boolean or null cannot be iterated. *)
Definition results_of_data (data : json) : outcome (list PhaseResult) :=
  match data with
  | JObj fields =>
      match dict_get "results" fields with
      | None => Returned []
      | Some (JList items) => results_of_list items
      | Some (JObj []) => Returned []
      | Some (JStr EmptyString) => Returned []
      | Some (JObj (_ :: _)) | Some (JStr (String _ _)) =>
          Raised (TypeError "string indices must be integers, not 'str'")
      | Some _ => Raised (TypeError "object is not iterable")
      end
  | _ => Raised (AttributeError "object has no attribute 'get'")
  end.

(** The values under the keys of a record have the types the dataclass
    declares; the status is a string, any string: [PhaseStatus(...)]
    checks it. *)
Definition typed_fields (fields : list (string * json)) : bool :=
  match dict_get "phase_number" fields with
  | None | Some (JInt _) => true
  | Some _ => false
  end
  && match dict_get "phase_name" fields with
     | None | Some (JStr _) => true
     | Some _ => false
     end
  && match dict_get "status" fields with
     | None | Some (JStr _) => true
     | Some _ => false
     end
  && forallb (fun k => match dict_get k fields with
                       | None | Some JNull | Some (JStr _) => true
                       | Some _ => false
                       end)
       ["start_time"; "end_time"; "error_message"; "command_used"; "output_file"]
  && match dict_get "duration_seconds" fields with
     | None | Some JNull | Some (JFloat _) => true
     | Some _ => false
     end.

(** A progress file within the model: every record that is an object has
    typed fields. *)
Definition typed_data (data : json) : bool :=
  match data with
  | JObj fields =>
      match dict_get "results" fields with
      | Some (JList items) =>
          forallb (fun r => match r with
                            | JObj f => typed_fields f
                            | _ => true
                            end) items
      | _ => true
      end
  | _ => true
  end.

(** ** [class DocJaysOrchestrator] *)

Section Methods.

Variable w : World.

(** [datetime.now()]: the next reading of the clock. *)
Definition now : M Z :=
  fun self =>
    (Returned (clock w (ticks self)),
     mkOrchestrator (dry_run self) (results self) (progress_file self)
       (S (ticks self)) (trace self)).

(** [load_progress]: nothing to do when the file does not exist. *)
Definition load_progress : M unit :=
  f <- gets progress_file ;;
  match f with
  | None => ret tt
  | Some data =>
      match results_of_data data with
      | Returned rs => set_results rs
      | Raised e => raise e
      end
  end.

(** [save_progress] *)
Definition save_progress : M unit :=
  t <- now ;;
  rs <- gets results ;;
  let data := progress_data (isoformat w t) rs in
  set_progress_file data ;;
  emit (ProgressWritten data).

(** [datetime.fromisoformat(t)] for a field of the record. *)
Definition parse_time (t : option string) : outcome Z :=
  match t with
  | None => Raised (TypeError "fromisoformat: argument must be str")
  | Some s =>
      match fromisoformat w s with
      | Some d => Returned d
      | None => Raised (ValueError ("Invalid isoformat string: '" ++ s ++ "'"))
      end
  end.

(** The [except Exception as e] branch of [execute_phase], entered with
    the record as the [try] block left it. *)
Definition except_branch (e : exn) (result : PhaseResult) : M PhaseResult :=
  let result := set_status FAILED result in
  let result := set_error_message (exn_str e) result in
  t <- now ;;
  ret (set_end_time (isoformat w t) result).

(** The [try] block of [execute_phase] from [process.wait()] on. *)
Definition after_wait (return_code : Z) (output_file : string) (result : PhaseResult)
  : M PhaseResult :=
  t <- now ;;
  let result := set_end_time (isoformat w t) result in
  match parse_time (start_time result) with
  | Raised e => except_branch e result
  | Returned start =>
      match parse_time (end_time result) with
      | Raised e => except_branch e result
      | Returned end_ =>
          let result := set_duration_seconds (end_ - start) result in
          let result := set_output_file output_file result in
          if return_code =? 0 then ret (set_status COMPLETED result)
          else
            let result := set_status FAILED result in
            ret (set_error_message
                   ("Command exited with code " ++ Text.str return_code) result)
      end
  end.

(** [execute_phase].  The console is assumed to take every [print]. *)
Definition execute_phase (phase_number : Z) : M PhaseResult :=
  match PHASES_get phase_number with
  | None => raise (ValueError ("Invalid phase number: " ++ Text.str phase_number))
  | Some phase_info =>
      let result := new_PhaseResult phase_number (name phase_info) IN_PROGRESS in
      dry <- gets dry_run ;;
      if dry then
        emit (Print (WouldExecute ("claude /" ++ command phase_info))) ;;
        let result := set_status SKIPPED result in
        let result := set_command_used ("/" ++ command phase_info) result in
        ret result
      else
        timestamp <- now ;;
        let output_file :=
          "scripts/outputs/phase" ++ Text.str phase_number ++ "_"
            ++ strftime w timestamp ++ ".log" in
        let command := "claude /" ++ command phase_info in
        let result := set_command_used command result in
        start <- now ;;
        let result := set_start_time (isoformat w start) result in
        match process w phase_number with
        | PopenRaises msg => except_branch (OSError msg) result
        | OpenRaises msg =>
            emit (Popen phase_number command) ;;
            except_branch (OSError msg) result
        | Interrupted =>
            emit (Popen phase_number command) ;;
            emit (LogFile phase_number output_file) ;;
            raise KeyboardInterrupt
        | Exits return_code =>
            emit (Popen phase_number command) ;;
            emit (LogFile phase_number output_file) ;;
            after_wait return_code output_file result
        end
  end.

(** The [ValueError] of [int(s)]. *)
Definition invalid_literal (s : string) : exn :=
  ValueError ("invalid literal for int() with base 10: '" ++ s ++ "'").

(** [start, end = map(int, parts)].  The map is lazy: [int] is called on
    the parts in order, as the unpacking asks for them, which is twice for
    the two targets and once more to see that nothing is left. *)
Definition unpack_two (parts : list string) : outcome (Z * Z) :=
  match parts with
  | [] => Raised (ValueError "not enough values to unpack (expected 2, got 0)")
  | a :: parts1 =>
      match Text.int a with
      | None => Raised (invalid_literal a)
      | Some start =>
          match parts1 with
          | [] => Raised (ValueError "not enough values to unpack (expected 2, got 1)")
          | b :: parts2 =>
              match Text.int b with
              | None => Raised (invalid_literal b)
              | Some end_ =>
                  match parts2 with
                  | [] => Returned (start, end_)
                  | c :: _ =>
                      match Text.int c with
                      | None => Raised (invalid_literal c)
                      | Some _ =>
                          Raised (ValueError "too many values to unpack (expected 2)")
                      end
                  end
              end
          end
      end
  end.

(** The plan [run_phases] derives from its argument. *)
Definition phases_to_run (phase_range : string) : outcome (list Z) :=
  if String.eqb (Text.lower phase_range) "all" then Returned PHASES_keys
  else if Text.contains "-" phase_range then
    match unpack_two (Text.split "-" phase_range) with
    | Returned (start, end_) => Returned (range start (end_ + 1))
    | Raised e => Raised e
    end
  else
    match Text.int phase_range with
    | Some n => Returned [n]
    | None => Raised (invalid_literal phase_range)
    end.

Definition is_status (s : PhaseStatus) (r : PhaseResult) : bool :=
  PhaseStatus_eqb (status r) s.

(** [next((r for r in self.results if r.phase_number == phase_num), None)] *)
Definition find_existing (phase_num : Z) (rs : list PhaseResult) : option PhaseResult :=
  find (fun r => phase_number r =? phase_num) rs.

(** [generate_report] *)
Definition generate_report : M unit :=
  rs <- gets results ;;
  let completed := filter (is_status COMPLETED) rs in
  let failed := filter (is_status FAILED) rs in
  let skipped := filter (is_status SKIPPED) rs in
  for_each (fun r => format_2f (duration_seconds r)) completed ;;
  stamp <- now ;;
  let report_file := "scripts/outputs/report_" ++ strftime w stamp ++ ".json" in
  generated_at <- now ;;
  emit (ReportWritten report_file (List.length rs) (List.length completed)
          (List.length failed) (List.length skipped) rs).

(** [existing and existing.status == PhaseStatus.COMPLETED] *)
Definition already_completed (existing : option PhaseResult) : option PhaseResult :=
  match existing with
  | Some e => if is_status COMPLETED e then Some e else None
  | None => None
  end.

(** "Update results": [if existing: self.results.remove(existing)], then
    [self.results.append(result)]. *)
Definition update_results (existing : option PhaseResult) (result : PhaseResult) : M unit :=
  match existing with
  | Some e =>
      rs <- gets results ;;
      set_results (list_remove e rs)
  | None => ret tt
  end ;;
  rs <- gets results ;;
  set_results (rs ++ [result])%list.

(** The body of the [for] loop of [run_phases] for one [phase_num]; it
    answers [true] where the loop goes on ([continue], or the end of the
    body) and [false] at [break].  [plan] is [phases_to_run]. *)
Definition loop_body (plan : list Z) (phase_num : Z) : M bool :=
  if negb (PHASES_mem phase_num) then
    emit (Print (NotFoundSkipping phase_num)) ;;
    ret true
  else
    rs <- gets results ;;
    let existing := find_existing phase_num rs in
    match already_completed existing with
    | Some e =>
        emit (Print (AlreadyCompleted phase_num)) ;;
        format_2f (duration_seconds e) ;;
        ret true
    | None =>
        result <- execute_phase phase_num ;;
        update_results existing result ;;
        save_progress ;;
        if is_status FAILED result then
          emit (Print (StoppingDueToFailure phase_num)) ;;
          emit (Print (ResumeHint (phase_num + 1))) ;;
          ret false
        else
          (if phase_num <? list_max 0 plan then emit (Sleep 5) else ret tt) ;;
          ret true
    end.

(** [for phase_num in phases_to_run: ...], over what is left of the plan. *)
Fixpoint run_loop (plan : list Z) (todo : list Z) : M unit :=
  match todo with
  | [] => ret tt
  | phase_num :: rest =>
      go_on <- loop_body plan phase_num ;;
      if go_on then run_loop plan rest else ret tt
  end.

(** [run_phases] *)
Definition run_phases (phase_range : string) : M unit :=
  match phases_to_run phase_range with
  | Raised e => raise e
  | Returned plan =>
      emit (Print (PhasesToRun plan)) ;;
      run_loop plan plan ;;
      generate_report
  end.

(** [f"{phase_number}-{max(self.PHASES.keys())}"] *)
Definition resume_selection (phase_number : Z) : string :=
  Text.str phase_number ++ "-" ++ Text.str (list_max 0 PHASES_keys).

(** [resume_from] *)
Definition resume_from (phase_number : Z) : M unit :=
  let remaining_phases := filter (fun p => phase_number <=? p) PHASES_keys in
  emit (Print (Resuming phase_number remaining_phases)) ;;
  run_phases (resume_selection phase_number).

End Methods.

(** ** [main] *)

(** The parsed command line. *)
Record Args : Type := mkArgs {
  arg_phase : option string;      (* [--phase] *)
  arg_resume_from : option Z;     (* [--resume-from], [type=int] *)
  arg_dry_run : bool              (* [--dry-run] *)
}.

(** Truth value of an [Optional[str]] and of an [Optional[int]]. *)
Definition truthy_str (s : option string) : bool :=
  match s with
  | Some (String _ _) => true
  | _ => false
  end.

Definition truthy_int (n : option Z) : bool :=
  match n with
  | None | Some 0 => false
  | Some _ => true
  end.

(** [DocJaysOrchestrator(project_root, dry_run)] in a project whose progress
    file holds [file]: [__init__] ends with [load_progress]. *)
Definition new_orchestrator (w : World) (dry : bool) (file : option json)
  : outcome unit * Orchestrator :=
  load_progress (mkOrchestrator dry [] file 0 []).

(** What [main] hands back: the exit status of the process and, when it got
    that far, the orchestrator object at the end. *)
Record Exit : Type := mkExit {
  exit_code : Z;
  final : option Orchestrator
}.

(** The call inside [main]'s [try]. *)
Definition controller (w : World) (args : Args) : M unit :=
  if truthy_int (arg_resume_from args) then
    match arg_resume_from args with
    | Some k => resume_from w k
    | None => ret tt
    end
  else
    match arg_phase args with
    | Some sel => run_phases w sel
    | None => ret tt
    end.

(** [main], for a command line that [argparse] accepted.  [marker] says
    whether [project_root/.claude] exists.  [parser.error] leaves with
    status 2, [sys.exit(1)] and an exception nobody catches with status 1,
    falling off the end with status 0. *)
Definition main (w : World) (args : Args) (marker : bool) (file : option json) : Exit :=
  if negb (truthy_str (arg_phase args)) && negb (truthy_int (arg_resume_from args))
  then mkExit 2 None
  else if negb marker then mkExit 1 None
  else
    match new_orchestrator w (arg_dry_run args) file with
    | (Raised _, self) => mkExit 1 (Some self)
    | (Returned _, self) =>
        match controller w args self with
        | (Returned _, self) => mkExit 0 (Some self)
        | (Raised KeyboardInterrupt, self) =>
            mkExit 1 (Some (snd ((emit (Print Interrupted_by_user) ;;
                                  save_progress w ;;
                                  generate_report w) self)))
        | (Raised e, self) =>
            mkExit 1 (Some (snd ((emit (Print (FatalError (exn_str e))) ;;
                                  save_progress w) self)))
        end
    end.

(** The progress file a run leaves behind. *)
Definition file_after (file : option json) (x : Exit) : option json :=
  match final x with
  | Some self => progress_file self
  | None => file
  end.

(** ** Sample worlds and stores, for the examples below *)

(** A clock that reads [n] seconds at its [n]-th reading; timestamps are
    written as the decimal count of microseconds. *)
Definition sample_world (fate : Z -> Attempt) : World :=
  mkWorld (fun n => 1000000 * Z.of_nat n) Text.str Text.int Text.str fate.

Definition fresh (dry : bool) : Orchestrator := mkOrchestrator dry [] None 0 [].


(** ** Vocabulary of the properties *)


(** A completed record carries a duration. *)
Definition timed_if_completed (r : PhaseResult) : bool :=
  match status r, duration_seconds r with
  | COMPLETED, None => false
  | _, _ => true
  end.

(** The record a dry run makes for a phase. *)
Definition skipped_record (phase_num : Z) (info : PhaseInfo) : PhaseResult :=
  mkPhaseResult phase_num (name info) SKIPPED None None None None
    (Some ("/" ++ command info)) None.

(** An effect of running a phase's command: a child process or a log file. *)
Definition spawns (ev : event) : bool :=
  match ev with
  | Popen _ _ | LogFile _ _ => true
  | _ => false
  end.

(** A child process or log file of phase [p]. *)
Definition spawns_for (p : Z) (ev : event) : bool :=
  match ev with
  | Popen q _ | LogFile q _ => q =? p
  | _ => false
  end.

(** [self.results] after "Update results". *)
Definition recorded (existing : option PhaseResult) (result : PhaseResult)
    (rs : list PhaseResult) : list PhaseResult :=
  (match existing with
   | Some e => list_remove e rs
   | None => rs
   end ++ [result])%list.

(** The orchestrator after the loop body has recorded and saved the result
    [r] of phase [p], run from state [s1]. *)
Definition after_phase (w : World) (plan : list Z) (p : Z)
    (existing : option PhaseResult) (r : PhaseResult) (s1 : Orchestrator) : Orchestrator :=
  let rs := recorded existing r (results s1) in
  let data := progress_data (isoformat w (clock w (ticks s1))) rs in
  mkOrchestrator (dry_run s1) rs (Some data) (S (ticks s1))
    (trace s1 ++
     ProgressWritten data ::
     (if is_status FAILED r
      then [Print (StoppingDueToFailure p); Print (ResumeHint (p + 1))]
      else if p <? list_max 0 plan then [Sleep 5] else []))%list.

(** The orchestrator after one more effect. *)
Definition with_event (ev : event) (self : Orchestrator) : Orchestrator :=
  mkOrchestrator (dry_run self) (results self) (progress_file self) (ticks self)
    (trace self ++ [ev])%list.

(** A console line. *)
Definition is_print (ev : event) : bool :=
  match ev with
  | Print _ => true
  | _ => false
  end.

(** What [execute_phase] can hand back for phase [p], in a dry run ([d] is
    [true]) or a real one. *)
Definition produced (d : bool) (p : Z) (r : PhaseResult) : Prop :=
  phase_number r = p
  /\ (status r = SKIPPED \/ status r = COMPLETED \/ status r = FAILED)
  /\ timed_if_completed r = true
  /\ (d = true -> exists info, PHASES_get p = Some info /\ r = skipped_record p info).

(** The invariant of a run with dry-run flag [d]: [R] holds of
    [self.results], every effect since the trace [t0] satisfies [T], and the
    progress file is the one found, [file0], or a saved collection of which
    [R] holds. *)
Definition holds (d : bool) (R : list PhaseResult -> Prop) (T : event -> Prop)
    (t0 : list event) (file0 : option json) (self : Orchestrator) : Prop :=
  dry_run self = d
  /\ R (results self)
  /\ (exists new, trace self = (t0 ++ new)%list /\ Forall T new)
  /\ (progress_file self = file0
      \/ exists t rs, progress_file self = Some (progress_data t rs) /\ R rs).

(** A record with a duration. *)
Definition has_duration (r : PhaseResult) : bool :=
  match duration_seconds r with
  | Some _ => true
  | None => false
  end.


(** The effects of one run of [main]. *)
Definition effects (x : Exit) : list event :=
  match final x with
  | Some self => trace self
  | None => []
  end.



(** The collection without its first record of phase [n]. *)
Fixpoint drop_first_record (n : Z) (rs : list PhaseResult) : list PhaseResult :=
  match rs with
  | [] => []
  | r :: rs' => if phase_number r =? n then rs' else r :: drop_first_record n rs'
  end.

(** The [upsert] of the specification, in its words: the new record takes
    the place of the existing record of its phase, "at its original
    position"; a result for a new identifier is appended at the end. *)
Fixpoint upsert_in_place (result : PhaseResult) (rs : list PhaseResult) : list PhaseResult :=
  match rs with
  | [] => [result]
  | r :: rs' =>
      if phase_number r =? phase_number result then result :: rs'
      else r :: upsert_in_place result rs'
  end.

(** Records of phases other than [n]. *)
Definition other_than (n : Z) (r : PhaseResult) : bool := negb (phase_number r =? n).

(** A store as an earlier run could have left it: phase 1 failed, phase 2
    completed. *)
Definition failed_1 : PhaseResult :=
  mkPhaseResult 1 "Database Foundation" FAILED (Some "1000000") (Some "2000000")
    (Some 1000000) (Some "Command exited with code 1")
    (Some "claude /docjays-phase1") (Some "scripts/outputs/phase1_0.log").

Definition completed_2 : PhaseResult :=
  mkPhaseResult 2 "Lifecycle Management APIs" COMPLETED (Some "5000000") (Some "6000000")
    (Some 1000000) None
    (Some "claude /docjays-phase2") (Some "scripts/outputs/phase2_4000000.log").

Definition sample_store (dry : bool) : Orchestrator :=
  mkOrchestrator dry [failed_1; completed_2] None 0 [].

(** A world in which every command exits with status 0. *)
Definition calm_world : World := sample_world (fun _ => Exits 0).

(** No record of phase [p] says [completed]. *)
Definition no_completed (p : Z) (rs : list PhaseResult) : bool :=
  forallb (fun r => negb ((phase_number r =? p) && is_status COMPLETED r)) rs.

(** The progress file holds the collection in memory. *)
Definition synced (self : Orchestrator) : Prop :=
  exists t, progress_file self = Some (progress_data t (results self)).

(** A dry run over a store whose completed records have durations. *)
Definition dry_ok (self : Orchestrator) : Prop :=
  dry_run self = true /\ forallb timed_if_completed (results self) = true.

(** The store holds the dry run's record of phase [p], and the progress
    file holds the store. *)
Definition marked (p : Z) (info : PhaseInfo) (self : Orchestrator) : Prop :=
  dry_ok self /\ In (skipped_record p info) (results self) /\ synced self.

(** A store with a failure on record: phase 2 failed, with its error
    message and its log. *)
Definition failed_2 : PhaseResult :=
  mkPhaseResult 2 "Lifecycle Management APIs" FAILED (Some "5000000") (Some "6000000")
    (Some 1000000) (Some "Command exited with code 3")
    (Some "claude /docjays-phase2") (Some "scripts/outputs/phase2_4000000.log").

Definition failure_on_record (dry : bool) : Orchestrator :=
  mkOrchestrator dry [failed_2] None 0 [].





(** A progress file whose record of phase 1 says completed and has no
    [duration_seconds] (nor any other optional field), followed by a failed
    record of phase 2; and the store loaded from it. *)
Definition untimed_file : json :=
  JObj [ ("last_updated", JStr "0");
         ("results",
          JList [ JObj [ ("phase_number", JInt 1);
                         ("phase_name", JStr "Database Foundation");
                         ("status", JStr "completed") ];
                  result_to_json failed_2 ]) ].

Definition untimed_completed_1 : PhaseResult :=
  new_PhaseResult 1 "Database Foundation" COMPLETED.

Definition untimed_store (dry : bool) : Orchestrator :=
  mkOrchestrator dry [untimed_completed_1; failed_2] (Some untimed_file) 0 [].

(** [--phase 1-2] *)
Definition phases_1_2 (dry : bool) : Args := mkArgs (Some "1-2") None dry.

Definition phase_2_info : PhaseInfo :=
  mkPhaseInfo "Lifecycle Management APIs" "docjays-phase2" "1-2 weeks"
    "Grounding API with metadata, approval workflow, lifecycle operations".

(** The record [execute_phase] makes of phase [p] when its command exits
    with [return_code], the clock having been read [t] times before. *)
Definition exit_record (w : World) (p : Z) (info : PhaseInfo) (return_code : Z) (t : nat)
  : PhaseResult :=
  mkPhaseResult p (name info)
    (if return_code =? 0 then COMPLETED else FAILED)
    (Some (isoformat w (clock w (S t))))
    (Some (isoformat w (clock w (S (S t)))))
    (Some (clock w (S (S t)) - clock w (S t)))
    (if return_code =? 0 then None
     else Some ("Command exited with code " ++ Text.str return_code))
    (Some ("claude /" ++ command info))
    (Some ("scripts/outputs/phase" ++ Text.str p ++ "_" ++ strftime w (clock w t) ++ ".log")).

(** Timestamps can be read back: [fromisoformat] inverts [isoformat]. *)
Definition reads_back (w : World) : Prop :=
  forall t, fromisoformat w (isoformat w t) = Some t.

(** A world where opening the log file fails. *)
Definition no_log_world : World := sample_world (fun _ => OpenRaises "Permission denied").

(** A world where phase 2 exits with status 3, all others with 0. *)
Definition failing_world : World :=
  sample_world (fun p => if p =? 2 then Exits 3 else Exits 0).

Definition phase_1_info : PhaseInfo :=
  mkPhaseInfo "Database Foundation" "docjays-phase1" "1-2 weeks"
    "Enhanced schema with taxonomy, lifecycle tracking, usage metadata".

(** The plan of resume mode in the specification's words: every catalog
    identifier that is at least [k], ascending. *)
Definition resume_plan_spec (k : Z) : list Z :=
  filter (fun p => k <=? p) PHASES_keys.

(** Nobody presses Ctrl-C. *)
Definition uninterrupted (w : World) : Prop :=
  forall p, process w p <> Interrupted.

(** [--phase 2], no [--resume-from], no [--dry-run]. *)
Definition only_phase_2 : Args := mkArgs (Some "2") None false.

(** Nothing was recorded or saved since [self], or the progress file
    holds the store. *)
Definition untouched_or_synced (self s : Orchestrator) : Prop :=
  (results s = results self /\ progress_file s = progress_file self) \/ synced s.

(** A command line [main] goes on with: a selection or a phase to resume
    from. *)
Definition usable (args : Args) : bool :=
  negb (negb (truthy_str (arg_phase args)) && negb (truthy_int (arg_resume_from args))).

(** A world where every command is interrupted. *)
Definition interrupting_world : World := sample_world (fun _ => Interrupted).

(** The keys [load_progress] must find in a record of the progress file,
    and those it reads if they are there. *)
Definition required_keys : list string := ["phase_number"; "phase_name"; "status"].

Definition optional_keys : list string :=
  ["start_time"; "end_time"; "duration_seconds"; "error_message"; "command_used";
   "output_file"].

(** [k] is none of [keys]. *)
Definition not_among (keys : list string) (k : string) : bool :=
  negb (existsb (String.eqb k) keys).

(** Strictly ascending. *)
Fixpoint ascending (l : list Z) : bool :=
  match l with
  | [] => true
  | x :: t =>
      match t with
      | [] => true
      | y :: _ => (x <? y) && ascending t
      end
  end.

(** The number of records with status [s]. *)
Definition count_status (s : PhaseStatus) (rs : list PhaseResult) : nat :=
  List.length (filter (is_status s) rs).

(** An effect that leaves the progress file alone. *)
Definition writes_nothing (ev : event) : bool :=
  match ev with
  | ProgressWritten _ => false
  | _ => true
  end.


(** ** Proof tools *)

Ltac unfold_monad :=
  unfold bind, ret, gets, emit, raise, set_results, set_progress_file, now, format_2f.

Ltac break_match :=
  match goal with
  | |- context [match ?x with _ => _ end] =>
      lazymatch x with
      | context [match _ with _ => _ end] => fail
      | _ => destruct x eqn:?
      end
  end.

(** * Properties *)

(** ** The model on small inputs *)

Example str_of_numbers : Text.str 42 = "42" /\ Text.str (-307) = "-307" /\ Text.str 0 = "0".
Proof. repeat split. Qed.

Example int_of_literals :
  Text.int " 1_000" = Some 1000 /\ Text.int "-12" = Some (-12) /\ Text.int "007" = Some 7.
Proof. repeat split. Qed.

Example int_rejects : Text.int "1__0" = None /\ Text.int "" = None /\ Text.int "-" = None.
Proof. repeat split. Qed.

Example split_examples :
  Text.split "-" "1-3" = ["1"; "3"] /\ Text.split "-" "-2-7" = [""; "2"; "7"].
Proof. repeat split. Qed.

Example plans :
  phases_to_run "ALL" = Returned [1; 2; 3; 4; 5; 6; 7]
  /\ phases_to_run "2-4" = Returned [2; 3; 4]
  /\ phases_to_run "6-9" = Returned [6; 7; 8; 9]
  /\ phases_to_run "5-2" = Returned []
  /\ phases_to_run "3" = Returned [3].
Proof. repeat split. Qed.

Example plan_of_negative_resume :
  phases_to_run (resume_selection (-2))
  = Raised (ValueError "invalid literal for int() with base 10: ''").
Proof. reflexivity. Qed.

Example unknown_phase_is_skipped :
  map phase_number (results (snd (run_phases calm_world "7-8" (fresh false)))) = [7]
  /\ In (Print (NotFoundSkipping 8)) (trace (snd (run_phases calm_world "7-8" (fresh false)))).
Proof. split; [vm_compute; reflexivity|]. vm_compute. tauto. Qed.

Example resume_from_zero_is_usage_error :
  exit_code (main calm_world (mkArgs None (Some 0) false) true None) = 2.
Proof. reflexivity. Qed.

Example interrupt_exits_one :
  exit_code (main (sample_world (fun _ => Interrupted)) (mkArgs (Some "1") None false) true None)
  = 1.
Proof. vm_compute. reflexivity. Qed.

(** ** Text *)

Module TextFacts.
Import Text.

Lemma small_cases (d : Z) :
  0 <= d < 10 ->
  d = 0 \/ d = 1 \/ d = 2 \/ d = 3 \/ d = 4 \/ d = 5 \/ d = 6 \/ d = 7 \/ d = 8 \/ d = 9.
Proof. lia. Qed.

Lemma digit_char_is_digit (d : Z) : 0 <= d < 10 -> is_digit (digit_char d) = true.
Proof.
  intros H. destruct (small_cases d H) as [E|[E|[E|[E|[E|[E|[E|[E|[E|E]]]]]]]]];
    subst d; reflexivity.
Qed.

Lemma digit_value_char (d : Z) : 0 <= d < 10 -> digit_value (digit_char d) = d.
Proof.
  intros H. destruct (small_cases d H) as [E|[E|[E|[E|[E|[E|[E|[E|[E|E]]]]]]]]];
    subst d; reflexivity.
Qed.

(** A digit is neither blank, nor a sign, nor a letter. *)
Lemma digit_plain (c : ascii) :
  is_digit c = true ->
  is_space c = false /\ Ascii.eqb c "+" = false /\ Ascii.eqb c "-" = false
  /\ lower_char c = c /\ Ascii.eqb c "a" = false.
Proof.
  destruct c as [[] [] [] [] [] [] [] []]; cbv; intros H;
    try discriminate H; repeat split.
Qed.

Lemma all_app (f : ascii -> bool) (s t : string) :
  all f (s ++ t) = all f s && all f t.
Proof.
  induction s as [|c s IH]; simpl; [reflexivity|].
  rewrite IH. now rewrite andb_assoc.
Qed.

Lemma digits_all_digits (fuel : nat) (n : Z) :
  0 <= n -> all is_digit (digits fuel n) = true.
Proof.
  revert n. induction fuel as [|fuel IH]; intros n Hn; cbn [digits].
  - cbn [all]. rewrite digit_char_is_digit; [reflexivity|].
    apply Z.mod_pos_bound. lia.
  - destruct (n <? 10) eqn:E.
    + apply Z.ltb_lt in E. cbn [all].
      rewrite digit_char_is_digit; [reflexivity|lia].
    + rewrite all_app, IH by (apply Z.div_pos; lia). cbn [all andb].
      rewrite digit_char_is_digit; [reflexivity|]. apply Z.mod_pos_bound. lia.
Qed.

Lemma string_app_assoc (s t u : string) : ((s ++ t) ++ u = s ++ (t ++ u))%string.
Proof. induction s as [|c s IH]; simpl; [reflexivity|]. now rewrite IH. Qed.

(** Reading back the digits of [n], whatever follows them. *)
Lemma literal_value_digits (fuel : nat) :
  forall (n : Z) (b : bool) (rest : string),
    0 <= n < 10 ^ Z.of_nat (S fuel) ->
    literal_value 0 b (digits fuel n ++ rest) = literal_value n true rest.
Proof.
  induction fuel as [|fuel IH]; intros n b rest Hn.
  - change (10 ^ Z.of_nat 1) with 10 in Hn. cbn [digits append literal_value].
    rewrite Z.mod_small by lia.
    rewrite digit_char_is_digit, digit_value_char by lia. reflexivity.
  - cbn [digits]. destruct (n <? 10) eqn:E.
    + apply Z.ltb_lt in E. cbn [append literal_value].
      rewrite digit_char_is_digit, digit_value_char by lia. reflexivity.
    + apply Z.ltb_ge in E. rewrite string_app_assoc.
      rewrite IH.
      * cbn [append literal_value].
        assert (Hm : 0 <= n mod 10 < 10) by (apply Z.mod_pos_bound; lia).
        rewrite digit_char_is_digit, digit_value_char by exact Hm.
        f_equal. pose proof (Z.div_mod n 10). lia.
      * split; [apply Z.div_pos; lia|].
        apply Z.div_lt_upper_bound; [lia|].
        replace (Z.of_nat (S (S fuel))) with (Z.succ (Z.of_nat (S fuel))) in Hn by lia.
        rewrite Z.pow_succ_r in Hn by lia. lia.
Qed.

Lemma size_bound (p : positive) : Z.pos p < 2 ^ Z.of_nat (Pos.size_nat p).
Proof.
  induction p as [p IH|p IH|]; simpl Pos.size_nat.
  - rewrite Nat2Z.inj_succ, Z.pow_succ_r by lia. lia.
  - rewrite Nat2Z.inj_succ, Z.pow_succ_r by lia. lia.
  - reflexivity.
Qed.

Lemma str_fuel (p : positive) : 0 <= Z.pos p < 10 ^ Z.of_nat (S (Pos.size_nat p)).
Proof.
  split; [lia|].
  pose proof (size_bound p) as H.
  assert (H2 : 2 ^ Z.of_nat (Pos.size_nat p) <= 10 ^ Z.of_nat (Pos.size_nat p))
    by (apply Z.pow_le_mono_l; lia).
  assert (H3 : 10 ^ Z.of_nat (Pos.size_nat p) <= 10 ^ Z.of_nat (S (Pos.size_nat p)))
    by (apply Z.pow_le_mono_r; lia).
  lia.
Qed.

Lemma str_unsigned (n : Z) : 0 <= n -> str n = unsigned n.
Proof. destruct n; simpl; intros H; [reflexivity|reflexivity|lia]. Qed.

Lemma unsigned_all_digits (n : Z) : 0 <= n -> all is_digit (unsigned n) = true.
Proof.
  destruct n; intros H; try reflexivity.
  apply digits_all_digits. lia.
Qed.

Lemma unsigned_value (n : Z) (b : bool) (rest : string) :
  0 <= n -> literal_value 0 b (unsigned n ++ rest) = literal_value n true rest.
Proof.
  destruct n as [|p|p]; intros H; [reflexivity| |lia].
  apply literal_value_digits, str_fuel.
Qed.

Lemma app_empty_r (s : string) : (s ++ "")%string = s.
Proof. induction s as [|c s IH]; simpl; [reflexivity|]. now rewrite IH. Qed.

Lemma lstrip_digits (s : string) : all is_digit s = true -> lstrip s = s.
Proof.
  destruct s as [|c s]; simpl; [reflexivity|].
  intros H. apply andb_prop in H. destruct H as [H _].
  destruct (digit_plain c H) as [-> _]. reflexivity.
Qed.

Lemma rstrip_digits (s : string) : all is_digit s = true -> rstrip s = s.
Proof.
  induction s as [|c s IH]; simpl; [reflexivity|].
  intros H. apply andb_prop in H. destruct H as [Hc Hs].
  rewrite (IH Hs). destruct (digit_plain c Hc) as [-> _].
  destruct s; reflexivity.
Qed.

(** [int(str(n)) == n] for [n >= 0]. *)
Lemma int_str (n : Z) : 0 <= n -> int (str n) = Some n.
Proof.
  intros Hn. rewrite str_unsigned by exact Hn.
  pose proof (unsigned_all_digits n Hn) as Hd.
  pose proof (unsigned_value n false "" Hn) as Hv. rewrite app_empty_r in Hv.
  unfold int, strip. rewrite (lstrip_digits _ Hd), (rstrip_digits _ Hd).
  destruct (unsigned n) as [|c r] eqn:E.
  - simpl in Hv. discriminate Hv.
  - simpl in Hd. apply andb_prop in Hd. destruct Hd as [Hc _].
    destruct (digit_plain c Hc) as (_ & -> & -> & _). exact Hv.
Qed.

Lemma contains_app (sep : ascii) (s t : string) :
  contains sep (s ++ t) = contains sep s || contains sep t.
Proof.
  induction s as [|c s IH]; simpl; [reflexivity|].
  rewrite IH. now rewrite orb_assoc.
Qed.

Lemma split_not_nil (sep : ascii) (s : string) : split sep s <> [].
Proof.
  destruct s as [|c s]; simpl; [discriminate|].
  destruct (Ascii.eqb c sep); [discriminate|].
  destruct (split sep s); discriminate.
Qed.

(** Splitting at a dash that follows a run of digits. *)
Lemma split_digits_dash (s t : string) :
  all is_digit s = true ->
  split "-" (s ++ String "-" t) = s :: split "-" t.
Proof.
  induction s as [|c s IH]; simpl; [reflexivity|].
  intros H. apply andb_prop in H. destruct H as [Hc Hs].
  destruct (digit_plain c Hc) as (_ & _ & -> & _).
  rewrite (IH Hs). reflexivity.
Qed.

(** [int(str(n)) == n] for a negative [n]. *)
Lemma int_str_neg (p : positive) : int (str (Z.neg p)) = Some (Z.neg p).
Proof.
  unfold str.
  pose proof (digits_all_digits (Pos.size_nat p) (Z.pos p) ltac:(lia)) as Hd.
  pose proof (literal_value_digits (Pos.size_nat p) (Z.pos p) false "" (str_fuel p)) as Hv.
  rewrite app_empty_r in Hv.
  unfold int, strip. cbn [lstrip]. change (is_space "-") with false. cbv iota.
  cbn [rstrip]. rewrite (rstrip_digits _ Hd).
  change (is_space "-") with false.
  destruct (digits (Pos.size_nat p) (Z.pos p)) as [|a ds]; [discriminate Hv|].
  change (Ascii.eqb "-" "+") with false. change (Ascii.eqb "-" "-") with true. cbv iota.
  rewrite Hv. reflexivity.
Qed.

(** [int(str(n)) == n] *)
Lemma int_str_any (n : Z) : int (str n) = Some n.
Proof.
  destruct n as [|p|p]; [reflexivity|apply int_str; lia|apply int_str_neg].
Qed.

End TextFacts.


(** ** Equality of records *)

Lemma PhaseStatus_eqb_eq (a b : PhaseStatus) : PhaseStatus_eqb a b = true <-> a = b.
Proof. destruct a, b; simpl; split; intros H; try reflexivity; discriminate H. Qed.

Lemma option_eqb_eq {A : Type} (eqb : A -> A -> bool) :
  (forall x y, eqb x y = true <-> x = y) ->
  forall a b : option A, option_eqb eqb a b = true <-> a = b.
Proof.
  intros Heq [x|] [y|]; simpl; split; intros H; try reflexivity; try discriminate H.
  - f_equal. now apply Heq.
  - apply Heq. congruence.
Qed.

Lemma PhaseResult_eqb_eq (a b : PhaseResult) : PhaseResult_eqb a b = true <-> a = b.
Proof.
  split.
  - unfold PhaseResult_eqb. intros H.
    repeat (apply andb_prop in H; destruct H as [H ?]).
    destruct a, b; cbn [phase_number phase_name status start_time end_time
      duration_seconds error_message command_used output_file] in *.
    repeat match goal with
           | E : (_ =? _) = true |- _ => apply Z.eqb_eq in E
           | E : String.eqb _ _ = true |- _ => apply String.eqb_eq in E
           | E : PhaseStatus_eqb _ _ = true |- _ => apply PhaseStatus_eqb_eq in E
           | E : option_eqb String.eqb _ _ = true |- _ =>
               apply (option_eqb_eq String.eqb String.eqb_eq) in E
           | E : option_eqb Z.eqb _ _ = true |- _ =>
               apply (option_eqb_eq Z.eqb Z.eqb_eq) in E
           end.
    congruence.
  - intros <-. unfold PhaseResult_eqb.
    rewrite Z.eqb_refl, String.eqb_refl.
    replace (PhaseStatus_eqb (status a) (status a)) with true
      by (symmetry; now apply PhaseStatus_eqb_eq).
    repeat match goal with
           | |- context [option_eqb String.eqb ?x ?x] =>
               replace (option_eqb String.eqb x x) with true
                 by (symmetry; now apply (option_eqb_eq String.eqb String.eqb_eq))
           | |- context [option_eqb Z.eqb ?x ?x] =>
               replace (option_eqb Z.eqb x x) with true
                 by (symmetry; now apply (option_eqb_eq Z.eqb Z.eqb_eq))
           end.
    reflexivity.
Qed.

Lemma PhaseResult_eqb_refl (a : PhaseResult) : PhaseResult_eqb a a = true.
Proof. now apply PhaseResult_eqb_eq. Qed.

Lemma PhaseResult_eqb_number (a b : PhaseResult) :
  phase_number a <> phase_number b -> PhaseResult_eqb a b = false.
Proof.
  intros H. destruct (PhaseResult_eqb a b) eqn:E; [|reflexivity].
  apply PhaseResult_eqb_eq in E. congruence.
Qed.

(** ** The progress file: what is saved is what is loaded *)

Lemma PhaseStatus_value_roundtrip (s : PhaseStatus) :
  PhaseStatus_of_value (PhaseStatus_value s) = Some s.
Proof. destruct s; reflexivity. Qed.

Lemma result_json_roundtrip (r : PhaseResult) :
  result_of_json (result_to_json r) = Returned r.
Proof.
  destruct r as [n nm st t0 t1 d err cmd out].
  unfold result_of_json, result_to_json, required, optional_str, optional_float, as_status.
  cbn. rewrite PhaseStatus_value_roundtrip.
  destruct t0, t1, d, err, cmd, out; reflexivity.
Qed.

Lemma results_list_roundtrip (rs : list PhaseResult) :
  results_of_list (map result_to_json rs) = Returned rs.
Proof.
  induction rs as [|r rs IH]; [reflexivity|].
  cbn [map results_of_list]. rewrite result_json_roundtrip, IH. reflexivity.
Qed.

Lemma results_data_roundtrip (last_updated : string) (rs : list PhaseResult) :
  results_of_data (progress_data last_updated rs) = Returned rs.
Proof. cbn. apply results_list_roundtrip. Qed.

Lemma save_progress_eq (w : World) (self : Orchestrator) :
  save_progress w self =
  let data := progress_data (isoformat w (clock w (ticks self))) (results self) in
  (Returned tt,
   mkOrchestrator (dry_run self) (results self) (Some data) (S (ticks self))
     (trace self ++ [ProgressWritten data])).
Proof. reflexivity. Qed.

(** C7. Saving a collection of results and loading the file again gives the
    same collection, field for field, whatever timestamp the save stamped
    the document with: the document read back is the collection, and an
    orchestrator constructed over the saved file starts with exactly the
    results that were saved. *)
Theorem save_then_load (w : World) (self : Orchestrator) (dry : bool) :
  (forall last_updated rs,
      results_of_data (progress_data last_updated rs) = Returned rs)
  /\ (exists last_updated,
        progress_file (snd (save_progress w self))
        = Some (progress_data last_updated (results self)))
  /\ fst (new_orchestrator w dry (progress_file (snd (save_progress w self))))
     = Returned tt
  /\ results (snd (new_orchestrator w dry (progress_file (snd (save_progress w self)))))
     = results self.
Proof.
  split; [exact results_data_roundtrip|].
  rewrite save_progress_eq. cbn [snd progress_file].
  split; [eexists; reflexivity|].
  unfold new_orchestrator, load_progress, bind, gets.
  cbn [progress_file fst snd]. rewrite results_data_roundtrip.
  split; reflexivity.
Qed.

(** ** One phase *)

Arguments Text.str : simpl never.
Arguments String.append : simpl never.

Section OnePhase.

Variable w : World.

Lemma execute_phase_dry (self : Orchestrator) (p : Z) (info : PhaseInfo) :
  dry_run self = true ->
  PHASES_get p = Some info ->
  execute_phase w p self =
  (Returned (skipped_record p info),
   mkOrchestrator (dry_run self) (results self) (progress_file self) (ticks self)
     (trace self ++ [Print (WouldExecute ("claude /" ++ command info))])).
Proof.
  intros Hd Hp. unfold execute_phase. rewrite Hp.
  destruct self as [d rs f t tr]. cbn [dry_run] in Hd. subst d. reflexivity.
Qed.

(** [execute_phase] leaves [self.results], the flag and the progress file
    alone; what it adds to the trace are console lines and, outside a dry
    run, the child and the log of this very phase. *)
Lemma execute_phase_frame (self : Orchestrator) (p : Z) :
  let self' := snd (execute_phase w p self) in
  dry_run self' = dry_run self
  /\ results self' = results self
  /\ progress_file self' = progress_file self
  /\ exists new,
      trace self' = (trace self ++ new)%list
      /\ forallb (fun ev => is_print ev || spawns_for p ev) new = true
      /\ (dry_run self = true -> forallb is_print new = true).
Proof.
  destruct self as [d rs f t tr].
  unfold execute_phase, after_wait, except_branch, parse_time.
  unfold_monad. cbn [dry_run results progress_file trace ticks].
  repeat break_match; cbn [fst snd dry_run results progress_file trace];
    (split; [reflexivity|]); (split; [reflexivity|]); (split; [reflexivity|]);
    rewrite <- ?app_assoc;
    first [ exists []; rewrite app_nil_r; split; [reflexivity|]
          | eexists; split; [reflexivity|] ];
    cbn [forallb spawns_for is_print negb orb andb app];
    rewrite ?Z.eqb_refl; repeat split; try reflexivity;
    intros; cbn [dry_run] in *; congruence.
Qed.

End OnePhase.

Section OnePhaseResult.

Variable w : World.

(** What [execute_phase] returns is a record of the phase asked for, with
    a status of its own choosing, and with a duration if it is completed. *)
Lemma execute_phase_result (self : Orchestrator) (p : Z) (r : PhaseResult) :
  fst (execute_phase w p self) = Returned r ->
  phase_number r = p
  /\ (status r = SKIPPED \/ status r = COMPLETED \/ status r = FAILED)
  /\ timed_if_completed r = true
  /\ (dry_run self = true -> status r = SKIPPED).
Proof.
  destruct self as [d rs f t tr].
  unfold execute_phase, after_wait, except_branch, parse_time.
  unfold_monad. cbn [dry_run results progress_file trace ticks].
  repeat break_match; cbn [fst snd]; intros H; inversion H; subst r;
    cbn; repeat split; auto; intros; cbn [dry_run] in *; congruence.
Qed.

(** X8. The duration of a record made by [execute_phase], where there is
    one, is the end minus the start, both read back from the record's own
    timestamps; so a record with a duration has both timestamps. *)
Lemma execute_phase_duration (self : Orchestrator) (p : Z) (r : PhaseResult) (d : Z) :
  fst (execute_phase w p self) = Returned r ->
  duration_seconds r = Some d ->
  exists s e ts te,
    start_time r = Some s /\ end_time r = Some e
    /\ fromisoformat w s = Some ts /\ fromisoformat w e = Some te
    /\ d = te - ts.
Proof.
  destruct self as [dr rs f t tr].
  unfold execute_phase, after_wait, except_branch, parse_time.
  unfold_monad. cbn [dry_run results progress_file trace ticks].
  repeat break_match; cbn [fst snd]; intros H; inversion H; subst r;
    cbn; intros Hd; try discriminate Hd; inversion Hd; subst d;
    cbn in *;
    repeat match goal with
           | E : Returned _ = Returned _ |- _ => inversion E; clear E; subst
           | E : Some _ = Some _ |- _ => inversion E; clear E; subst
           end;
    do 4 eexists; repeat split; eassumption.
Qed.

End OnePhaseResult.

(** ** The loop body, case by case *)

Section LoopBody.

Variable w : World.

Lemma update_results_eq (existing : option PhaseResult) (r : PhaseResult)
    (self : Orchestrator) :
  update_results existing r self =
  (Returned tt,
   mkOrchestrator (dry_run self) (recorded existing r (results self))
     (progress_file self) (ticks self) (trace self)).
Proof. destruct existing; reflexivity. Qed.

(** An identifier outside the catalog: a warning, and on with the loop. *)
Lemma loop_body_unknown (plan : list Z) (p : Z) (self : Orchestrator) :
  PHASES_mem p = false ->
  loop_body w plan p self = (Returned true, with_event (Print (NotFoundSkipping p)) self).
Proof. intros H. unfold loop_body. rewrite H. reflexivity. Qed.

(** A phase whose record says [completed]: a notice, and on with the loop,
    unless the record has no duration to print. *)
Lemma loop_body_completed (plan : list Z) (p : Z) (e : PhaseResult) (self : Orchestrator) :
  PHASES_mem p = true ->
  already_completed (find_existing p (results self)) = Some e ->
  loop_body w plan p self =
  (match duration_seconds e with
   | Some _ => Returned true
   | None => Raised (TypeError "unsupported format string passed to NoneType.__format__")
   end,
   with_event (Print (AlreadyCompleted p)) self).
Proof.
  intros Hm He. unfold loop_body. rewrite Hm. cbn [negb].
  unfold bind at 1. unfold gets at 1. cbv beta iota zeta. rewrite He.
  unfold_monad. destruct (duration_seconds e); reflexivity.
Qed.

(** Any other phase of the catalog is executed, recorded and saved. *)
Lemma loop_body_execute (plan : list Z) (p : Z) (self : Orchestrator) :
  PHASES_mem p = true ->
  already_completed (find_existing p (results self)) = None ->
  loop_body w plan p self =
  match execute_phase w p self with
  | (Returned r, s1) =>
      (Returned (negb (is_status FAILED r)),
       after_phase w plan p (find_existing p (results self)) r s1)
  | (Raised e, s1) => (Raised e, s1)
  end.
Proof.
  intros Hm He. unfold loop_body. rewrite Hm. cbn [negb].
  unfold bind at 1. unfold gets at 1. cbv beta iota zeta. rewrite He.
  unfold bind at 1. destruct (execute_phase w p self) as [[r|e] s1]; [|reflexivity].
  unfold bind at 1. rewrite update_results_eq.
  unfold bind at 1. rewrite save_progress_eq. cbv zeta.
  unfold after_phase.
  cbn [dry_run results progress_file ticks trace].
  destruct (is_status FAILED r); [|destruct (p <? list_max 0 plan)];
    unfold_monad; cbn [dry_run results progress_file ticks trace negb];
    rewrite <- ?app_assoc; reflexivity.
Qed.

(** An invariant of the loop body is an invariant of the loop. *)
Lemma run_loop_invariant (I : Orchestrator -> Prop) (plan : list Z) :
  (forall p self, I self -> I (snd (loop_body w plan p self))) ->
  forall todo self, I self -> I (snd (run_loop w plan todo self)).
Proof.
  intros Hbody todo. induction todo as [|p rest IH]; intros self HI; [exact HI|].
  cbn [run_loop]. unfold bind.
  specialize (Hbody p self HI).
  destruct (loop_body w plan p self) as [[[|]|e] s1]; cbn [snd] in *.
  - now apply IH.
  - exact Hbody.
  - exact Hbody.
Qed.

End LoopBody.

(** ** Invariants of a run *)

Lemma PHASES_mem_get (p : Z) :
  PHASES_mem p = true <-> exists info, PHASES_get p = Some info.
Proof.
  unfold PHASES_mem, PHASES_get, PHASES_keys.
  induction PHASES as [|[k v] table IH]; cbn [map existsb find fst snd option_map].
  - split; [discriminate|]. intros [info H]. discriminate H.
  - rewrite (Z.eqb_sym k p). destruct (p =? k); cbn [orb].
    + split; [|reflexivity]. intros _. exists v. reflexivity.
    + exact IH.
Qed.

Lemma execute_phase_produced (w : World) (self : Orchestrator) (p : Z) (r : PhaseResult) :
  fst (execute_phase w p self) = Returned r -> produced (dry_run self) p r.
Proof.
  intros H. destruct (execute_phase_result w self p r H) as (Hn & Hs & Ht & Hd).
  repeat split; try assumption.
  intros Hdry. destruct (PHASES_get p) as [info|] eqn:Hp.
  - exists info. split; [reflexivity|].
    rewrite (execute_phase_dry w self p info Hdry Hp) in H. cbn [fst] in H. congruence.
  - unfold execute_phase in H. rewrite Hp in H. discriminate H.
Qed.

Lemma bind_invariant {A B : Type} (I : Orchestrator -> Prop) (c : M A) (k : A -> M B) :
  (forall s, I s -> I (snd (c s))) ->
  (forall a s, I s -> I (snd (k a s))) ->
  forall s, I s -> I (snd (bind c k s)).
Proof.
  intros Hc Hk s HI. unfold bind. specialize (Hc s HI).
  destruct (c s) as [[a|e] s1]; cbn [snd] in *; [now apply Hk|exact Hc].
Qed.

Lemma for_each_format (l : list PhaseResult) (self : Orchestrator) :
  for_each (fun r => format_2f (duration_seconds r)) l self =
  (if forallb has_duration l then Returned tt
   else Raised (TypeError "unsupported format string passed to NoneType.__format__"),
   self).
Proof.
  induction l as [|r l IH]; [reflexivity|].
  cbn [for_each forallb]. unfold bind, format_2f, has_duration at 1.
  destruct (duration_seconds r); [|reflexivity].
  unfold ret. cbn [andb]. exact IH.
Qed.

Lemma generate_report_eq (w : World) (self : Orchestrator) :
  generate_report w self =
  if forallb has_duration (filter (is_status COMPLETED) (results self)) then
    (Returned tt,
     mkOrchestrator (dry_run self) (results self) (progress_file self) (S (S (ticks self)))
       (trace self ++
        [ReportWritten
           ("scripts/outputs/report_" ++ strftime w (clock w (ticks self)) ++ ".json")
           (List.length (results self))
           (List.length (filter (is_status COMPLETED) (results self)))
           (List.length (filter (is_status FAILED) (results self)))
           (List.length (filter (is_status SKIPPED) (results self)))
           (results self)]))
  else
    (Raised (TypeError "unsupported format string passed to NoneType.__format__"), self).
Proof.
  unfold generate_report. unfold bind at 1. unfold gets at 1. cbv beta iota zeta.
  unfold bind at 1. rewrite for_each_format.
  destruct (forallb has_duration (filter (is_status COMPLETED) (results self)));
    reflexivity.
Qed.

Section Invariants.

Variable w : World.
Variable d : bool.                           (* the run's dry-run flag *)
Variable R : list PhaseResult -> Prop.       (* what holds of [self.results] *)
Variable T : event -> Prop.                  (* what holds of every new effect *)
Variable t0 : list event.                    (* the trace before the run *)
Variable file0 : option json.                (* the progress file before the run *)

Hypothesis R_step :
  forall p r rs,
    R rs -> PHASES_mem p = true -> already_completed (find_existing p rs) = None ->
    produced d p r -> R (recorded (find_existing p rs) r rs).
Hypothesis T_print : forall m, T (Print m).
Hypothesis T_sleep : forall n, T (Sleep n).
Hypothesis T_report :
  forall path a b c e rs, R rs -> T (ReportWritten path a b c e rs).
Hypothesis T_save : forall t rs, R rs -> T (ProgressWritten (progress_data t rs)).
Hypothesis T_spawn :
  forall q ev rs,
    d = false -> R rs -> PHASES_mem q = true ->
    already_completed (find_existing q rs) = None ->
    spawns_for q ev = true -> T ev.

Local Abbreviation holds := (holds d R T t0 file0).

Lemma holds_event (ev : event) (self : Orchestrator) :
  T ev -> holds self -> holds (with_event ev self).
Proof.
  intros Hev (Hd & HR & (new & Ht & Hnew) & Hf).
  repeat split; try assumption.
  exists (new ++ [ev])%list. cbn [with_event trace]. rewrite Ht, app_assoc.
  split; [reflexivity|]. apply Forall_app. split; [assumption|]. now constructor.
Qed.

Lemma holds_save (self : Orchestrator) :
  holds self -> holds (snd (save_progress w self)).
Proof.
  intros (Hd & HR & (new & Ht & Hnew) & Hf). rewrite save_progress_eq.
  cbv zeta. cbn [snd]. repeat split; cbn [dry_run results trace progress_file];
    try assumption.
  - exists (new ++ [ProgressWritten
                      (progress_data (isoformat w (clock w (ticks self))) (results self))])%list.
    rewrite Ht, app_assoc. split; [reflexivity|].
    apply Forall_app. split; [assumption|]. constructor; [|constructor].
    now apply T_save.
  - right. do 2 eexists. split; [reflexivity|assumption].
Qed.

Lemma holds_execute (p : Z) (self : Orchestrator) :
  PHASES_mem p = true ->
  already_completed (find_existing p (results self)) = None ->
  holds self -> holds (snd (execute_phase w p self)).
Proof.
  intros Hm He (Hd & HR & (new & Ht & Hnew) & Hf).
  destruct (execute_phase_frame w self p) as (F1 & F2 & F3 & more & F4 & F5 & F6).
  repeat split.
  - congruence.
  - rewrite F2. assumption.
  - exists (new ++ more)%list. rewrite F4, Ht, app_assoc. split; [reflexivity|].
    apply Forall_app. split; [assumption|].
    apply Forall_forall. intros ev Hin.
    destruct (dry_run self) eqn:Hdry.
    + specialize (F6 eq_refl). rewrite forallb_forall in F6.
      specialize (F6 ev Hin). destruct ev; try discriminate F6. apply T_print.
    + rewrite forallb_forall in F5. specialize (F5 ev Hin).
      apply orb_prop in F5. destruct F5 as [F5|F5].
      * destruct ev; try discriminate F5. apply T_print.
      * apply (T_spawn p ev (results self)); try assumption. congruence.
  - rewrite F3. assumption.
Qed.

Lemma holds_after_phase (plan : list Z) (p : Z) (self : Orchestrator) (r : PhaseResult) :
  PHASES_mem p = true ->
  already_completed (find_existing p (results self)) = None ->
  holds self ->
  fst (execute_phase w p self) = Returned r ->
  holds (after_phase w plan p (find_existing p (results self)) r
           (snd (execute_phase w p self))).
Proof.
  intros Hm He HI Hr.
  pose proof (holds_execute p self Hm He HI) as (Hd & HR & (new & Ht & Hnew) & Hf).
  destruct (execute_phase_frame w self p) as (F1 & F2 & _).
  assert (HR' : R (recorded (find_existing p (results self)) r
                     (results (snd (execute_phase w p self))))).
  { rewrite F2. apply R_step; try assumption.
    - destruct HI as (_ & H & _). exact H.
    - destruct HI as (Hd0 & _). rewrite <- Hd0. now apply (execute_phase_produced w). }
  unfold after_phase. cbv zeta. repeat split;
    cbn [dry_run results trace progress_file]; try assumption.
  - eexists. rewrite Ht, <- app_assoc. split; [reflexivity|].
    apply Forall_app. split; [assumption|].
    constructor; [now apply T_save|].
    destruct (is_status FAILED r); [|destruct (p <? list_max 0 plan)];
      repeat constructor; auto.
  - right. do 2 eexists. split; [reflexivity|assumption].
Qed.

Lemma holds_loop_body (plan : list Z) (p : Z) (self : Orchestrator) :
  holds self -> holds (snd (loop_body w plan p self)).
Proof.
  intros HI. destruct (PHASES_mem p) eqn:Hm.
  - destruct (already_completed (find_existing p (results self))) as [e|] eqn:He.
    + rewrite (loop_body_completed w plan p e self Hm He). cbn [snd].
      apply holds_event; [apply T_print|assumption].
    + rewrite (loop_body_execute w plan p self Hm He).
      pose proof (holds_after_phase plan p self) as Hafter.
      pose proof (holds_execute p self Hm He HI) as Hexec.
      destruct (execute_phase w p self) as [[r|e] s1]; cbn [fst snd] in *.
      * now apply Hafter.
      * exact Hexec.
  - rewrite (loop_body_unknown w plan p self Hm). cbn [snd].
    apply holds_event; [apply T_print|assumption].
Qed.

Lemma holds_run_loop (plan todo : list Z) (self : Orchestrator) :
  holds self -> holds (snd (run_loop w plan todo self)).
Proof.
  apply (run_loop_invariant w holds plan). intros p s. apply holds_loop_body.
Qed.

Lemma holds_generate_report (self : Orchestrator) :
  holds self -> holds (snd (generate_report w self)).
Proof.
  intros HI. rewrite generate_report_eq.
  destruct (forallb has_duration (filter (is_status COMPLETED) (results self)));
    cbn [snd]; [|exact HI].
  destruct HI as (Hd & HR & (new & Ht & Hnew) & Hf).
  repeat split; cbn [dry_run results trace progress_file]; try assumption.
  eexists. rewrite Ht, <- app_assoc. split; [reflexivity|].
  apply Forall_app. split; [assumption|]. constructor; [|constructor].
  now apply T_report.
Qed.

Lemma holds_run_phases (phase_range : string) (self : Orchestrator) :
  holds self -> holds (snd (run_phases w phase_range self)).
Proof.
  intros HI. unfold run_phases.
  destruct (phases_to_run phase_range) as [plan|e]; [|exact HI].
  revert self HI. apply bind_invariant.
  - intros s Hs. apply (holds_event (Print (PhasesToRun plan)) s); [apply T_print|exact Hs].
  - intros _. apply bind_invariant.
    + intros s. apply holds_run_loop.
    + intros _ s. apply holds_generate_report.
Qed.

Lemma holds_resume_from (k : Z) (self : Orchestrator) :
  holds self -> holds (snd (resume_from w k self)).
Proof.
  unfold resume_from. revert self. apply bind_invariant.
  - intros s Hs.
    apply (holds_event (Print (Resuming k (filter (fun p => k <=? p) PHASES_keys))) s);
      [apply T_print|exact Hs].
  - intros _ s. apply holds_run_phases.
Qed.

Lemma holds_controller (args : Args) (self : Orchestrator) :
  holds self -> holds (snd (controller w args self)).
Proof.
  intros HI. unfold controller.
  destruct (truthy_int (arg_resume_from args)).
  - destruct (arg_resume_from args); [now apply holds_resume_from|exact HI].
  - destruct (arg_phase args); [now apply holds_run_phases|exact HI].
Qed.

(** The orchestrator [main] ends with satisfies the invariant, when the
    results found in the progress file do. *)
Lemma holds_main (args : Args) (marker : bool) (self : Orchestrator) :
  d = arg_dry_run args ->
  t0 = [] ->
  R [] ->
  (forall data rs, file0 = Some data -> results_of_data data = Returned rs -> R rs) ->
  final (main w args marker file0) = Some self ->
  holds self.
Proof.
  intros Hd Ht0 Hnil Hload. unfold main.
  destruct (negb (truthy_str (arg_phase args)) && negb (truthy_int (arg_resume_from args)));
    [discriminate|].
  destruct (negb marker); [discriminate|].
  assert (Hinit : holds (snd (new_orchestrator w (arg_dry_run args) file0))).
  { unfold new_orchestrator, load_progress, bind, gets. cbn [progress_file].
    destruct file0 as [data|] eqn:Hfile.
    - specialize (Hload data). destruct (results_of_data data) as [rs|e];
        cbn [snd set_results raise]; unfold set_results, raise; cbn [snd];
        (repeat split; cbn [dry_run results trace progress_file]; auto;
         exists []; rewrite Ht0; split; [reflexivity|constructor]).
    - cbn [snd ret]. unfold ret. cbn [snd].
      repeat split; cbn [dry_run results trace progress_file]; auto.
      exists []. rewrite Ht0. split; [reflexivity|constructor]. }
  destruct (new_orchestrator w (arg_dry_run args) file0) as [[[]|e0] s0]; cbn [snd] in Hinit.
  - pose proof (holds_controller args s0 Hinit) as Hc.
    destruct (controller w args s0) as [[[]|e] s1]; cbn [snd] in Hc.
    + cbn [final]. intros H. inversion H. subst self. exact Hc.
    + assert (Hs : holds (snd ((emit (Print (FatalError (exn_str e))) ;; save_progress w) s1))).
      { revert s1 Hc. apply bind_invariant.
        - intros s Hs. apply (holds_event (Print (FatalError (exn_str e))) s);
            [apply T_print|exact Hs].
        - intros _ s. apply holds_save. }
      assert (Hk : holds (snd ((emit (Print Interrupted_by_user) ;; save_progress w ;;
                                generate_report w) s1))).
      { revert s1 Hc Hs. intros s1 Hc _. revert s1 Hc. apply bind_invariant.
        - intros s Hs. apply (holds_event (Print Interrupted_by_user) s);
            [apply T_print|exact Hs].
        - intros _. apply bind_invariant.
          + intros s. apply holds_save.
          + intros _ s. apply holds_generate_report. }
      destruct e; cbn [final]; intros H; inversion H; subst self; assumption.
  - cbn [final]. intros H. inversion H. subst self. exact Hinit.
Qed.

End Invariants.

(** ** No record is saved while in progress *)

Lemma forallb_list_remove (f : PhaseResult -> bool) (e : PhaseResult) (rs : list PhaseResult) :
  forallb f rs = true -> forallb f (list_remove e rs) = true.
Proof.
  induction rs as [|r rs IH]; cbn [list_remove forallb]; [reflexivity|].
  intros H. apply andb_prop in H. destruct H as [Hr Hrs].
  destruct (PhaseResult_eqb r e); [exact Hrs|].
  cbn [forallb]. now rewrite Hr, IH.
Qed.

Lemma forallb_recorded (f : PhaseResult -> bool) (existing : option PhaseResult)
    (r : PhaseResult) (rs : list PhaseResult) :
  forallb f rs = true -> f r = true -> forallb f (recorded existing r rs) = true.
Proof.
  intros Hrs Hr. unfold recorded. rewrite forallb_app. cbn [forallb].
  rewrite Hr. destruct existing as [e|]; [rewrite forallb_list_remove|rewrite Hrs];
    auto.
Qed.








(** ** Recording a result *)

Lemma find_existing_some (n : Z) (rs : list PhaseResult) (e : PhaseResult) :
  find_existing n rs = Some e -> In e rs /\ phase_number e = n.
Proof.
  intros H. apply find_some in H. destruct H as [Hin Hn].
  split; [exact Hin|]. now apply Z.eqb_eq.
Qed.

Lemma list_remove_existing (n : Z) (rs : list PhaseResult) (e : PhaseResult) :
  find_existing n rs = Some e -> list_remove e rs = drop_first_record n rs.
Proof.
  unfold find_existing.
  induction rs as [|r rs IH]; cbn [find list_remove drop_first_record]; [discriminate|].
  destruct (phase_number r =? n) eqn:E.
  - intros H. inversion H. subst r. now rewrite PhaseResult_eqb_refl.
  - intros H. rewrite PhaseResult_eqb_number.
    + now rewrite IH.
    + apply find_some in H. destruct H as [_ H].
      apply Z.eqb_eq in H. apply Z.eqb_neq in E. congruence.
Qed.

Lemma drop_first_record_none (n : Z) (rs : list PhaseResult) :
  find_existing n rs = None -> drop_first_record n rs = rs.
Proof.
  unfold find_existing.
  induction rs as [|r rs IH]; cbn [find drop_first_record]; [reflexivity|].
  destruct (phase_number r =? n); [discriminate|].
  intros H. now rewrite IH.
Qed.

Lemma recorded_eq (r : PhaseResult) (rs : list PhaseResult) :
  recorded (find_existing (phase_number r) rs) r rs
  = (drop_first_record (phase_number r) rs ++ [r])%list.
Proof.
  unfold recorded. destruct (find_existing (phase_number r) rs) as [e|] eqn:E.
  - now rewrite (list_remove_existing _ _ _ E).
  - now rewrite (drop_first_record_none _ _ E).
Qed.

Lemma filter_drop_first_record (n : Z) (rs : list PhaseResult) :
  filter (other_than n) (drop_first_record n rs) = filter (other_than n) rs.
Proof.
  induction rs as [|r rs IH]; cbn [drop_first_record filter]; [reflexivity|].
  unfold other_than at 2. destruct (phase_number r =? n) eqn:E; cbn [negb].
  - reflexivity.
  - cbn [filter]. unfold other_than at 1. rewrite E. cbn [negb]. now rewrite IH.
Qed.

(** C4, as the code has it.  Recording a result drops the first record of
    the same phase, if there is one, and appends the new record at the end
    of the collection: the new record does not take the old one's place.
    The records of the other phases keep their order, and a result for a
    phase without a record is appended to the collection as it is. *)
Theorem recorded_result_goes_last (self : Orchestrator) (result : PhaseResult) :
  let n := phase_number result in
  let existing := find_existing n (results self) in
  let self' := snd (update_results existing result self) in
  results self' = (drop_first_record n (results self) ++ [result])%list
  /\ filter (other_than n) (results self') = filter (other_than n) (results self)
  /\ match existing with
     | Some e => In e (results self) /\ phase_number e = n
     | None => results self' = (results self ++ [result])%list
     end.
Proof.
  cbv zeta. rewrite update_results_eq. cbn [snd results].
  rewrite recorded_eq. split; [reflexivity|]. split.
  - rewrite filter_app, filter_drop_first_record. cbn [filter].
    unfold other_than at 2. rewrite Z.eqb_refl. cbn [negb]. apply app_nil_r.
  - destruct (find_existing (phase_number result) (results self)) as [e|] eqn:E.
    + now apply find_existing_some.
    + now rewrite (drop_first_record_none _ _ E).
Qed.

(** C4, as stated, fails.  A dry run over phase 1, in a store that holds a
    failed record of phase 1 followed by a completed record of phase 2,
    leaves the new record of phase 1 behind the record of phase 2, not in
    the first place, where the old one was. *)
Lemma replaced_record_changes_place :
  map phase_number (results (sample_store true)) = [1; 2]
  /\ map phase_number (results (snd (run_phases calm_world "1" (sample_store true)))) = [2; 1]
  /\ results (snd (run_phases calm_world "1" (sample_store true)))
     <> upsert_in_place (skipped_record 1 (mkPhaseInfo "Database Foundation" "docjays-phase1"
                            "1-2 weeks"
                            "Enhanced schema with taxonomy, lifecycle tracking, usage metadata"))
          (results (sample_store true)).
Proof.
  split; [reflexivity|]. split; [vm_compute; reflexivity|].
  vm_compute. intros H. discriminate H.
Qed.

(** ** A completed phase is left alone *)

Lemma find_app_first {A : Type} (f : A -> bool) (l1 l2 : list A) (x : A) :
  find f l1 = Some x -> find f (l1 ++ l2) = Some x.
Proof.
  induction l1 as [|a l1 IH]; cbn [find app]; [discriminate|].
  destruct (f a); [auto|exact IH].
Qed.

Lemma find_drop_other (n p : Z) (rs : list PhaseResult) :
  n <> p -> find_existing p (drop_first_record n rs) = find_existing p rs.
Proof.
  intros Hnp. unfold find_existing.
  induction rs as [|r rs IH]; cbn [drop_first_record find]; [reflexivity|].
  destruct (phase_number r =? n) eqn:E.
  - apply Z.eqb_eq in E. destruct (phase_number r =? p) eqn:E'; [|reflexivity].
    apply Z.eqb_eq in E'. congruence.
  - cbn [find]. now rewrite IH.
Qed.

Lemma completed_is_found (p : Z) (e : PhaseResult) (rs : list PhaseResult) :
  find_existing p rs = Some e -> status e = COMPLETED ->
  already_completed (find_existing p rs) = Some e.
Proof.
  intros Hf Hs. rewrite Hf. unfold already_completed, is_status. now rewrite Hs.
Qed.

(** Recording a result of another phase does not move the record of [p]
    out of the first place among the records of [p]. *)
Lemma find_recorded_other (p q : Z) (e r : PhaseResult) (rs : list PhaseResult) :
  q <> p -> phase_number r = q ->
  find_existing p rs = Some e ->
  find_existing p (recorded (find_existing q rs) r rs) = Some e.
Proof.
  intros Hqp Hr He. subst q. rewrite recorded_eq.
  unfold find_existing at 1. apply find_app_first.
  change (find_existing p (drop_first_record (phase_number r) rs) = Some e).
  now rewrite find_drop_other.
Qed.

Lemma spawns_for_other (p q : Z) (ev : event) :
  q <> p -> spawns_for q ev = true -> spawns_for p ev = false.
Proof.
  intros Hqp. destruct ev; cbn [spawns_for]; try reflexivity;
    intros H; apply Z.eqb_eq in H; subst; now apply Z.eqb_neq.
Qed.

(** The record of a completed phase through a run. *)
Lemma completed_record_kept (w : World) (self : Orchestrator) (phase_range : string)
    (p : Z) (e : PhaseResult) :
  find_existing p (results self) = Some e ->
  status e = COMPLETED ->
  find_existing p (results (snd (run_phases w phase_range self))) = Some e
  /\ exists new,
       trace (snd (run_phases w phase_range self)) = (trace self ++ new)%list
       /\ Forall (fun ev => spawns_for p ev = false) new.
Proof.
  intros He Hs.
  assert (Hother : forall q rs,
             find_existing p rs = Some e ->
             already_completed (find_existing q rs) = None -> q <> p).
  { intros q rs Hf Hq Heq. subst q.
    rewrite (completed_is_found p e rs Hf Hs) in Hq. discriminate Hq. }
  assert (H : holds (dry_run self) (fun rs => find_existing p rs = Some e)
                (fun ev => spawns_for p ev = false) (trace self) (progress_file self)
                (snd (run_phases w phase_range self))).
  { apply holds_run_phases.
    - intros q r rs Hrs _ Hq (Hn & _). apply find_recorded_other; try assumption.
      now apply (Hother q rs).
    - reflexivity.
    - reflexivity.
    - reflexivity.
    - reflexivity.
    - intros q ev rs _ Hrs _ Hq Hev. apply (spawns_for_other p q); [|exact Hev].
      now apply (Hother q rs).
    - repeat split; try assumption.
      + exists []. rewrite app_nil_r. split; [reflexivity|constructor].
      + now left. }
  destruct H as (_ & HR & Htrace & _). now split.
Qed.

(** X21. For a phase [p] whose record in the store says [completed], a run
    over any selection creates neither a child process nor a log file for
    [p] and leaves the record of [p] as it was; when the loop comes to [p]
    and the record has a duration, it goes on with the rest of the plan
    after a console line. *)
Theorem completed_phase_untouched (w : World) (self : Orchestrator) (phase_range : string)
    (p : Z) (e : PhaseResult) :
  find_existing p (results self) = Some e ->
  status e = COMPLETED ->
  let self' := snd (run_phases w phase_range self) in
  find_existing p (results self') = Some e
  /\ (exists new,
        trace self' = (trace self ++ new)%list
        /\ Forall (fun ev => spawns_for p ev = false) new)
  /\ (has_duration e = true ->
      forall plan rest,
      exists m,
        run_loop w plan (p :: rest) self
        = run_loop w plan rest (with_event (Print m) self)).
Proof.
  intros He Hs. cbv zeta.
  destruct (completed_record_kept w self phase_range p e He Hs) as [Hkept Htrace].
  split; [exact Hkept|]. split; [exact Htrace|].
  intros Hd plan rest. cbn [run_loop]. unfold bind.
  destruct (PHASES_mem p) eqn:Hm.
  - rewrite (loop_body_completed w plan p e self Hm (completed_is_found p e _ He Hs)).
    unfold has_duration in Hd. destruct (duration_seconds e); [|discriminate Hd].
    eexists. reflexivity.
  - rewrite (loop_body_unknown w plan p self Hm). eexists. reflexivity.
Qed.

Lemma completed_phase_untouched_witness :
  find_existing 2 (results (sample_store false)) = Some completed_2
  /\ find_existing 2 (results (snd (run_phases calm_world "1-3" (sample_store false))))
     = Some completed_2.
Proof.
  split; [reflexivity|].
  apply (completed_phase_untouched calm_world (sample_store false) "1-3" 2 completed_2);
    reflexivity.
Defined.

(** ** Dry runs *)

Lemma already_completed_some (q : Z) (rs : list PhaseResult) (e : PhaseResult) :
  already_completed (find_existing q rs) = Some e ->
  In e rs /\ phase_number e = q /\ status e = COMPLETED.
Proof.
  unfold already_completed. destruct (find_existing q rs) as [x|] eqn:E; [|discriminate].
  destruct (is_status COMPLETED x) eqn:Hs; [|discriminate].
  intros H. inversion H. subst x.
  destruct (find_existing_some q rs e E) as [Hin Hn].
  repeat split; try assumption. now apply PhaseStatus_eqb_eq.
Qed.

Lemma timed_completed_has_duration (e : PhaseResult) :
  timed_if_completed e = true -> status e = COMPLETED -> has_duration e = true.
Proof.
  unfold timed_if_completed, has_duration. intros H Hs. rewrite Hs in H.
  destruct (duration_seconds e); [reflexivity|discriminate H].
Qed.

Section DryRun.

Variable w : World.

(** One turn of the loop in a dry run: it always goes on, and either
    changes nothing but the console, or records and saves the skipped
    record of the phase. *)
Lemma loop_body_dry (plan : list Z) (q : Z) (self : Orchestrator) :
  dry_ok self ->
  exists s',
    loop_body w plan q self = (Returned true, s')
    /\ dry_run s' = true
    /\ ((results s' = results self /\ progress_file s' = progress_file self
         /\ (PHASES_mem q = false
             \/ exists e, already_completed (find_existing q (results self)) = Some e))
        \/ (exists info,
              PHASES_get q = Some info
              /\ already_completed (find_existing q (results self)) = None
              /\ results s'
                 = recorded (find_existing q (results self)) (skipped_record q info)
                     (results self)
              /\ synced s')).
Proof.
  intros [Hdry Hwf]. destruct (PHASES_mem q) eqn:Hm.
  - destruct (already_completed (find_existing q (results self))) as [e|] eqn:He.
    + rewrite (loop_body_completed w plan q e self Hm He).
      destruct (already_completed_some q _ e He) as (Hin & _ & Hs).
      rewrite forallb_forall in Hwf.
      pose proof (timed_completed_has_duration e (Hwf e Hin) Hs) as Hd.
      unfold has_duration in Hd. destruct (duration_seconds e); [|discriminate Hd].
      eexists. split; [reflexivity|]. split; [exact Hdry|].
      left. repeat split. right. now exists e.
    + rewrite (loop_body_execute w plan q self Hm He).
      destruct (proj1 (PHASES_mem_get q) Hm) as [info Hinfo].
      rewrite (execute_phase_dry w self q info Hdry Hinfo).
      eexists. split; [reflexivity|]. split; [exact Hdry|].
      right. exists info. repeat split; try assumption.
      eexists. reflexivity.
  - rewrite (loop_body_unknown w plan q self Hm).
    eexists. split; [reflexivity|]. split; [exact Hdry|].
    left. repeat split. now left.
Qed.

Lemma skipped_record_timed (q : Z) (info : PhaseInfo) :
  timed_if_completed (skipped_record q info) = true.
Proof. reflexivity. Qed.

Lemma dry_ok_loop_body (plan : list Z) (q : Z) (self : Orchestrator) :
  dry_ok self -> dry_ok (snd (loop_body w plan q self)).
Proof.
  intros H. destruct (loop_body_dry plan q self H) as (s' & Heq & Hd & Hcase).
  rewrite Heq. cbn [snd]. split; [exact Hd|]. destruct H as [_ Hwf].
  destruct Hcase as [(Hr & _)|(info & _ & _ & Hr & _)]; rewrite Hr; [exact Hwf|].
  apply forallb_recorded; [exact Hwf|reflexivity].
Qed.

Lemma run_loop_dry_returns (plan todo : list Z) :
  forall self, dry_ok self -> fst (run_loop w plan todo self) = Returned tt.
Proof.
  induction todo as [|q rest IH]; intros self H; [reflexivity|].
  cbn [run_loop]. unfold bind.
  pose proof (dry_ok_loop_body plan q self H) as H'.
  destruct (loop_body_dry plan q self H) as (s' & Heq & _).
  rewrite Heq in *. cbn [snd] in H'. now apply IH.
Qed.

End DryRun.

Lemma In_list_remove (x e : PhaseResult) (rs : list PhaseResult) :
  In x rs -> x <> e -> In x (list_remove e rs).
Proof.
  intros Hin Hne. induction rs as [|r rs IH]; cbn [list_remove]; [contradiction|].
  destruct (PhaseResult_eqb r e) eqn:E.
  - apply PhaseResult_eqb_eq in E. subst r.
    destruct Hin as [H|H]; [congruence|exact H].
  - destruct Hin as [H|H]; [left; exact H|right; now apply IH].
Qed.

(** The dry run's record of a phase stays in the store through the dry
    run's later recordings: it can only give way to its own like. *)
Lemma In_recorded_skipped (p q : Z) (info info' : PhaseInfo) (rs : list PhaseResult) :
  PHASES_get p = Some info -> PHASES_get q = Some info' ->
  In (skipped_record p info) rs ->
  In (skipped_record p info) (recorded (find_existing q rs) (skipped_record q info') rs).
Proof.
  intros Hp Hq Hin. unfold recorded. apply in_or_app.
  destruct (find_existing q rs) as [e|] eqn:E; [|now left].
  destruct (PhaseResult_eqb (skipped_record p info) e) eqn:Heq.
  - apply PhaseResult_eqb_eq in Heq. subst e.
    destruct (find_existing_some q rs _ E) as [_ Hn]. cbn [skipped_record phase_number] in Hn.
    subst q. right. left. congruence.
  - left. apply In_list_remove; [exact Hin|].
    intros H. subst e. now rewrite PhaseResult_eqb_refl in Heq.
Qed.

Section DryMarks.

Variable w : World.

Lemma marked_loop_body (plan : list Z) (p q : Z) (info : PhaseInfo) (self : Orchestrator) :
  PHASES_get p = Some info ->
  marked p info self -> marked p info (snd (loop_body w plan q self)).
Proof.
  intros Hp (Hok & Hin & Hsync).
  pose proof (dry_ok_loop_body w plan q self Hok) as Hok'.
  destruct (loop_body_dry w plan q self Hok) as (s' & Heq & _ & Hcase).
  rewrite Heq in *. cbn [snd] in *. split; [exact Hok'|].
  destruct Hcase as [(Hr & Hf & _)|(info' & Hq & _ & Hr & Hs)].
  - split; [now rewrite Hr|]. destruct Hsync as [t Ht]. exists t. now rewrite Hf, Hr.
  - split; [|exact Hs]. rewrite Hr. now apply In_recorded_skipped.
Qed.

Lemma no_completed_not_found (p : Z) (rs : list PhaseResult) :
  no_completed p rs = true -> already_completed (find_existing p rs) = None.
Proof.
  intros H. destruct (already_completed (find_existing p rs)) as [e|] eqn:E; [|reflexivity].
  destruct (already_completed_some p rs e E) as (Hin & Hn & Hs).
  unfold no_completed in H. rewrite forallb_forall in H. specialize (H e Hin).
  unfold is_status in H. rewrite Hn, Hs, Z.eqb_refl in H. discriminate H.
Qed.

(** A dry run over a plan that names [p] comes to record [p] as skipped,
    when no record says that [p] is completed. *)
Lemma run_loop_dry_marks (plan : list Z) (p : Z) (info : PhaseInfo) (todo : list Z) :
  PHASES_get p = Some info ->
  In p todo ->
  forall self,
    dry_ok self -> no_completed p (results self) = true ->
    marked p info (snd (run_loop w plan todo self)).
Proof.
  intros Hp. induction todo as [|q rest IH]; intros Hin self Hok Hnc; [contradiction|].
  cbn [run_loop]. unfold bind.
  pose proof (dry_ok_loop_body w plan q self Hok) as Hok'.
  destruct (loop_body_dry w plan q self Hok) as (s' & Heq & _ & Hcase).
  rewrite Heq in *. cbn [snd] in Hok'.
  destruct (Z.eq_dec q p) as [->|Hqp].
  - apply (run_loop_invariant w (marked p info) plan);
      [intros q s; now apply marked_loop_body|].
    split; [exact Hok'|].
    pose proof (no_completed_not_found p _ Hnc) as Hnone.
    destruct Hcase as [(_ & _ & [Hm|[e He]])|(info' & Hq & _ & Hr & Hs)].
    + pose proof (proj2 (PHASES_mem_get p) (ex_intro _ info Hp)). congruence.
    + congruence.
    + split; [|exact Hs]. rewrite Hr. unfold recorded. apply in_or_app. right. left.
      congruence.
  - destruct Hin as [Hin|Hin]; [congruence|].
    apply IH; [exact Hin|exact Hok'|].
    destruct Hcase as [(Hr & _)|(info' & _ & _ & Hr & _)]; rewrite Hr; [exact Hnc|].
    apply forallb_recorded; [exact Hnc|].
    cbn [skipped_record phase_number is_status status PhaseStatus_eqb].
    now rewrite andb_false_r.
Qed.

Lemma run_phases_eq (phase_range : string) (plan : list Z) (self : Orchestrator) :
  phases_to_run phase_range = Returned plan ->
  run_phases w phase_range self =
  match run_loop w plan plan (with_event (Print (PhasesToRun plan)) self) with
  | (Returned _, s1) => generate_report w s1
  | (Raised e, s1) => (Raised e, s1)
  end.
Proof. intros H. unfold run_phases. rewrite H. reflexivity. Qed.

(** [run_phases] in a dry run: the report changes neither the store nor the
    progress file, and the run returns. *)
Lemma run_phases_dry (phase_range : string) (plan : list Z) (self : Orchestrator) :
  dry_ok self ->
  phases_to_run phase_range = Returned plan ->
  let s1 := snd (run_loop w plan plan (with_event (Print (PhasesToRun plan)) self)) in
  fst (run_phases w phase_range self) = Returned tt
  /\ results (snd (run_phases w phase_range self)) = results s1
  /\ progress_file (snd (run_phases w phase_range self)) = progress_file s1.
Proof.
  intros Hok Hplan. cbv zeta. rewrite (run_phases_eq phase_range plan self Hplan).
  assert (Hok0 : dry_ok (with_event (Print (PhasesToRun plan)) self)) by exact Hok.
  pose proof (run_loop_dry_returns w plan plan _ Hok0) as Hret.
  pose proof (run_loop_invariant w dry_ok plan
                (fun q s => dry_ok_loop_body w plan q s) plan _ Hok0) as Hok1.
  destruct (run_loop w plan plan (with_event (Print (PhasesToRun plan)) self))
    as [[[]|e] s1]; cbn [fst snd] in *; [|discriminate Hret].
  rewrite generate_report_eq.
  destruct Hok1 as [_ Hwf].
  assert (Hd : forallb has_duration (filter (is_status COMPLETED) (results s1)) = true).
  { apply forallb_forall. intros r Hr. apply filter_In in Hr. destruct Hr as [Hin Hs].
    rewrite forallb_forall in Hwf.
    apply timed_completed_has_duration; [now apply Hwf|]. now apply PhaseStatus_eqb_eq. }
  rewrite Hd. repeat split.
Qed.

End DryMarks.

(** ** One record per phase *)

Lemma In_numbers_drop (n m : Z) (rs : list PhaseResult) :
  In m (map phase_number (drop_first_record n rs)) -> In m (map phase_number rs).
Proof.
  induction rs as [|r rs IH]; cbn [drop_first_record map]; [auto|].
  destruct (phase_number r =? n); cbn [map In]; [now right|].
  intros [H|H]; [now left|right; now apply IH].
Qed.

Lemma NoDup_drop (n : Z) (rs : list PhaseResult) :
  NoDup (map phase_number rs) ->
  NoDup (map phase_number (drop_first_record n rs))
  /\ ~ In n (map phase_number (drop_first_record n rs)).
Proof.
  induction rs as [|r rs IH]; cbn [drop_first_record map]; intros H.
  - split; [constructor|intros []].
  - inversion H as [|x l Hnotin Hrest]; subst.
    destruct (phase_number r =? n) eqn:E.
    + apply Z.eqb_eq in E. subst n. now split.
    + apply Z.eqb_neq in E. destruct (IH Hrest) as [IH1 IH2]. cbn [map]. split.
      * constructor; [|exact IH1]. intros Hin. apply Hnotin.
        now apply (In_numbers_drop n).
      * intros [Hin|Hin]; [congruence|now apply IH2].
Qed.

Lemma NoDup_snoc {A : Type} (l : list A) (x : A) :
  NoDup l -> ~ In x l -> NoDup (l ++ [x]).
Proof.
  induction l as [|a l IH]; cbn [app]; intros Hl Hx.
  - constructor; [intros []|constructor].
  - inversion Hl as [|y l' Ha Hl']; subst. constructor.
    + intros Hin. apply in_app_or in Hin. destruct Hin as [Hin|[Hin|[]]].
      * now apply Ha.
      * apply Hx. left. now symmetry.
    + apply IH; [exact Hl'|]. intros Hin. apply Hx. now right.
Qed.

Lemma NoDup_recorded (q : Z) (r : PhaseResult) (rs : list PhaseResult) :
  phase_number r = q ->
  NoDup (map phase_number rs) ->
  NoDup (map phase_number (recorded (find_existing q rs) r rs)).
Proof.
  intros <- H. rewrite recorded_eq, map_app. cbn [map].
  destruct (NoDup_drop (phase_number r) rs H) as [H1 H2].
  now apply NoDup_snoc.
Qed.

Lemma find_unique (x : PhaseResult) (rs : list PhaseResult) :
  NoDup (map phase_number rs) -> In x rs ->
  find_existing (phase_number x) rs = Some x.
Proof.
  unfold find_existing.
  induction rs as [|r rs IH]; cbn [map find]; intros Hnd Hin; [contradiction|].
  inversion Hnd as [|y l Hnotin Hrest]; subst.
  destruct (phase_number r =? phase_number x) eqn:E.
  - apply Z.eqb_eq in E. destruct Hin as [Hin|Hin]; [congruence|].
    exfalso. apply Hnotin. rewrite E. now apply in_map.
  - apply Z.eqb_neq in E. destruct Hin as [Hin|Hin]; [congruence|].
    now apply IH.
Qed.

(** Over a store with one record per phase at most, every run leaves one
    record per phase at most. *)
Lemma run_phases_NoDup (w : World) (phase_range : string) (self : Orchestrator) :
  NoDup (map phase_number (results self)) ->
  NoDup (map phase_number (results (snd (run_phases w phase_range self)))).
Proof.
  intros H.
  assert (Hh : holds (dry_run self) (fun rs => NoDup (map phase_number rs))
                 (fun _ => True) (trace self) (progress_file self)
                 (snd (run_phases w phase_range self))).
  { apply holds_run_phases; try (intros; exact I).
    - intros p r rs Hrs _ _ (Hn & _). now apply NoDup_recorded.
    - repeat split; try assumption.
      + exists []. rewrite app_nil_r. split; [reflexivity|constructor].
      + now left. }
  destruct Hh as (_ & HR & _). exact HR.
Qed.

(** ** What a dry run does *)

(** C5, as the code has it.  A dry run, whatever the selection, creates no
    child process and no log file.  It records as skipped, without
    timestamps, every planned phase of the catalog that no record of the
    store says is completed, provided the completed records of the store
    have their durations; a phase on record as completed keeps its record,
    and an identifier outside the catalog gets none. *)
Theorem dry_run_spawns_nothing (w : World) (self : Orchestrator) (phase_range : string) :
  dry_run self = true ->
  let self' := snd (run_phases w phase_range self) in
  (exists new,
      trace self' = (trace self ++ new)%list
      /\ Forall (fun ev => spawns ev = false) new)
  /\ (forall plan p,
         forallb timed_if_completed (results self) = true ->
         phases_to_run phase_range = Returned plan ->
         In p plan ->
         PHASES_mem p = true ->
         no_completed p (results self) = true ->
         exists r,
           In r (results self')
           /\ phase_number r = p /\ status r = SKIPPED
           /\ start_time r = None /\ end_time r = None)
  /\ (forall p e,
         find_existing p (results self) = Some e -> status e = COMPLETED ->
         find_existing p (results self') = Some e)
  /\ (forall p r,
         PHASES_mem p = false ->
         In r (results self') -> phase_number r = p -> In r (results self)).
Proof.
  intros Hdry. cbv zeta. split; [|split; [|split]].
  - assert (H : holds true (fun _ => True) (fun ev => spawns ev = false)
                  (trace self) (progress_file self)
                  (snd (run_phases w phase_range self))).
    { apply holds_run_phases; try (intros; exact I); try reflexivity.
      - intros q ev rs Hd. discriminate Hd.
      - repeat split; try assumption.
        + exists []. rewrite app_nil_r. split; [reflexivity|constructor].
        + now left. }
    destruct H as (_ & _ & Htrace & _). exact Htrace.
  - intros plan p Hwf Hplan Hin Hm Hnc.
    destruct (proj1 (PHASES_mem_get p) Hm) as [info Hp].
    assert (Hok : dry_ok self) by (split; assumption).
    destruct (run_phases_dry w phase_range plan self Hok Hplan) as (_ & Hr & _).
    rewrite Hr.
    assert (Hok0 : dry_ok (with_event (Print (PhasesToRun plan)) self)) by exact Hok.
    destruct (run_loop_dry_marks w plan p info plan Hp Hin _ Hok0 Hnc) as (_ & H & _).
    exists (skipped_record p info). split; [exact H|]. repeat split.
  - intros p e He Hs.
    now apply (completed_record_kept w self phase_range p e He Hs).
  - intros p r Hm.
    assert (H : holds (dry_run self)
                  (fun rs => forall x, In x rs -> phase_number x = p -> In x (results self))
                  (fun _ => True) (trace self) (progress_file self)
                  (snd (run_phases w phase_range self))).
    { apply holds_run_phases; try (intros; exact I).
      - intros q x rs Hrs Hq _ (Hn & _) y Hy Hyp. unfold recorded in Hy.
        apply in_app_or in Hy. destruct Hy as [Hy|[Hy|[]]].
        + apply Hrs; [|exact Hyp]. destruct (find_existing q rs) as [e|]; [|exact Hy].
          clear - Hy. induction rs as [|a rs IH]; cbn [list_remove] in Hy; [contradiction|].
          destruct (PhaseResult_eqb a e); [now right|].
          destruct Hy as [Hy|Hy]; [now left|right; now apply IH].
        + subst y. congruence.
      - repeat split; try assumption.
        + auto.
        + exists []. rewrite app_nil_r. split; [reflexivity|constructor].
        + now left. }
    destruct H as (_ & HR & _). exact (HR r).
Qed.

Lemma dry_run_spawns_nothing_witness :
  dry_run (sample_store true) = true
  /\ exists r,
       In r (results (snd (run_phases calm_world "1-2" (sample_store true))))
       /\ phase_number r = 1 /\ status r = SKIPPED
       /\ start_time r = None /\ end_time r = None.
Proof.
  split; [reflexivity|].
  apply (proj1 (proj2 (dry_run_spawns_nothing calm_world (sample_store true) "1-2" eq_refl))
           [1; 2] 1); try reflexivity.
  left. reflexivity.
Defined.

(** C5, as stated, fails, in four ways.  A dry run over "1-2", in a store
    where phase 2 is on record as completed, plans phase 2 and does not
    mark it skipped: its record stays as it was.  A dry run over "8" plans
    an identifier outside the catalog and makes no record.  A dry run over
    "1-2" in a store whose completed record of phase 1 has no duration
    raises [TypeError] at phase 1, so that phase 2, planned, in the catalog
    and not completed, is not marked skipped either.  And the command in a
    skipped record is not the one that would have run: the dry run of
    phase 1 records the slash command alone, where the run proper starts,
    and records, that command handed to [claude]. *)
Lemma dry_run_keeps_completed :
  (dry_run (sample_store true) = true
   /\ phases_to_run "1-2" = Returned [1; 2]
   /\ find_existing 2 (results (snd (run_phases calm_world "1-2" (sample_store true))))
      = Some completed_2
   /\ ~ (exists r,
           In r (results (snd (run_phases calm_world "1-2" (sample_store true))))
           /\ phase_number r = 2 /\ status r = SKIPPED))
  /\ (phases_to_run "8" = Returned [8]
      /\ results (snd (run_phases calm_world "8" (fresh true))) = [])
  /\ (dry_run (untimed_store true) = true
      /\ no_completed 2 (results (untimed_store true)) = true
      /\ fst (run_phases calm_world "1-2" (untimed_store true))
         = Raised (TypeError "unsupported format string passed to NoneType.__format__")
      /\ ~ (exists r,
              In r (results (snd (run_phases calm_world "1-2" (untimed_store true))))
              /\ phase_number r = 2 /\ status r = SKIPPED))
  /\ (map command_used (results (snd (run_phases calm_world "1" (fresh true))))
      = [Some "/docjays-phase1"]
      /\ map command_used (results (snd (run_phases calm_world "1" (fresh false))))
         = [Some "claude /docjays-phase1"]
      /\ In (Popen 1 "claude /docjays-phase1")
           (trace (snd (run_phases calm_world "1" (fresh false))))).
Proof.
  split; [|split; [|split]].
  - split; [reflexivity|]. split; [reflexivity|]. split; [vm_compute; reflexivity|].
    intros (r & Hin & Hn & Hs). vm_compute in Hin.
    destruct Hin as [H|[H|[]]]; subst r; cbn in Hn, Hs; discriminate.
  - split; vm_compute; reflexivity.
  - split; [reflexivity|]. split; [reflexivity|]. split; [vm_compute; reflexivity|].
    intros (r & Hin & Hn & Hs). vm_compute in Hin.
    destruct Hin as [H|[H|[]]]; subst r; cbn in Hn, Hs; discriminate.
  - split; [vm_compute; reflexivity|]. split; [vm_compute; reflexivity|].
    vm_compute. tauto.
Qed.

(** ** A dry run rewrites the store *)

Lemma unique_not_completed (p : Z) (e : PhaseResult) (rs : list PhaseResult) :
  NoDup (map phase_number rs) ->
  find_existing p rs = Some e -> status e <> COMPLETED ->
  no_completed p rs = true.
Proof.
  intros Hnd He Hs. unfold no_completed. apply forallb_forall. intros r Hin.
  destruct (phase_number r =? p) eqn:E; [|reflexivity].
  apply Z.eqb_eq in E. pose proof (find_unique r rs Hnd Hin) as Hr.
  rewrite E, He in Hr. inversion Hr. subst r.
  unfold is_status. destruct (status e); try reflexivity. congruence.
Qed.

(** X22. A dry run rewrites the store.  For a planned phase of the catalog
    whose record has a status other than completed, in a store with one
    record per phase whose completed records have their durations, the
    store after the dry run holds for that phase the skipped record, which
    has no timestamps, no error message and no log path, and the progress
    file holds that store: the failure that was on record is gone. *)
Theorem dry_run_overwrites_record (w : World) (self : Orchestrator) (phase_range : string)
    (plan : list Z) (p : Z) (e : PhaseResult) (info : PhaseInfo) :
  dry_run self = true ->
  forallb timed_if_completed (results self) = true ->
  NoDup (map phase_number (results self)) ->
  phases_to_run phase_range = Returned plan ->
  In p plan ->
  PHASES_get p = Some info ->
  find_existing p (results self) = Some e ->
  status e <> COMPLETED ->
  let self' := snd (run_phases w phase_range self) in
  find_existing p (results self') = Some (skipped_record p info)
  /\ synced self'
  /\ start_time (skipped_record p info) = None
  /\ end_time (skipped_record p info) = None
  /\ error_message (skipped_record p info) = None
  /\ output_file (skipped_record p info) = None.
Proof.
  intros Hdry Hwf Hnd Hplan Hin Hp He Hs. cbv zeta.
  assert (Hok : dry_ok self) by (split; assumption).
  destruct (run_phases_dry w phase_range plan self Hok Hplan) as (_ & Hr & Hf).
  assert (Hok0 : dry_ok (with_event (Print (PhasesToRun plan)) self)) by exact Hok.
  pose proof (unique_not_completed p e _ Hnd He Hs) as Hnc.
  destruct (run_loop_dry_marks w plan p info plan Hp Hin _ Hok0 Hnc) as (_ & Hmark & Hsync).
  split; [|split; [|repeat split]].
  - change p with (phase_number (skipped_record p info)) at 1.
    apply find_unique; [now apply run_phases_NoDup|]. now rewrite Hr.
  - destruct Hsync as [t Ht]. exists t. now rewrite Hf, Hr.
Qed.

Lemma dry_run_overwrites_record_witness :
  error_message failed_2 = Some "Command exited with code 3"
  /\ find_existing 2 (results (snd (run_phases calm_world "2" (failure_on_record true))))
     = Some (skipped_record 2 phase_2_info).
Proof.
  split; [reflexivity|].
  apply (dry_run_overwrites_record calm_world (failure_on_record true) "2" [2] 2
           failed_2 phase_2_info); try reflexivity.
  - repeat constructor. intros [].
  - left. reflexivity.
  - discriminate.
Defined.

(** ** Real runs *)

Lemma execute_phase_exits (w : World) (self : Orchestrator) (p : Z) (info : PhaseInfo)
    (return_code : Z) :
  reads_back w ->
  dry_run self = false ->
  PHASES_get p = Some info ->
  process w p = Exits return_code ->
  execute_phase w p self =
  (Returned (exit_record w p info return_code (ticks self)),
   mkOrchestrator false (results self) (progress_file self) (S (S (S (ticks self))))
     (trace self ++
      [Popen p ("claude /" ++ command info);
       LogFile p ("scripts/outputs/phase" ++ Text.str p ++ "_"
                  ++ strftime w (clock w (ticks self)) ++ ".log")])).
Proof.
  intros Hrb Hdry Hp Hproc. destruct self as [d rs f t tr]. cbn [dry_run] in Hdry. subst d.
  unfold execute_phase. rewrite Hp. unfold_monad.
  cbn [dry_run results progress_file ticks trace]. rewrite Hproc.
  unfold after_wait, parse_time. unfold_monad.
  cbn [dry_run results progress_file ticks trace start_time end_time
       set_start_time set_end_time set_command_used new_PhaseResult].
  rewrite !Hrb. unfold exit_record.
  destruct (return_code =? 0); cbn; rewrite <- app_assoc; reflexivity.
Qed.

Lemma sample_world_reads_back (fate : Z -> Attempt) : reads_back (sample_world fate).
Proof. intros t. apply TextFacts.int_str_any. Qed.

(** C3, where the code departs from it.  When an exception is caught in
    [execute_phase] (here: the log file cannot be opened), the record
    returned has both its start and its end timestamp, and no duration. *)
Theorem caught_exception_leaves_no_duration (w : World) (self : Orchestrator) (p : Z)
    (info : PhaseInfo) (msg : string) :
  dry_run self = false ->
  PHASES_get p = Some info ->
  process w p = OpenRaises msg ->
  exists r,
    fst (execute_phase w p self) = Returned r
    /\ status r = FAILED
    /\ start_time r = Some (isoformat w (clock w (S (ticks self))))
    /\ end_time r = Some (isoformat w (clock w (S (S (ticks self)))))
    /\ duration_seconds r = None.
Proof.
  intros Hdry Hp Hproc. destruct self as [d rs f t tr]. cbn [dry_run] in Hdry. subst d.
  unfold execute_phase. rewrite Hp. unfold_monad.
  cbn [dry_run results progress_file ticks trace]. rewrite Hproc.
  unfold except_branch. unfold_monad. eexists. split; [reflexivity|].
  repeat split.
Qed.

Lemma caught_exception_leaves_no_duration_witness :
  exists r,
    fst (execute_phase no_log_world 1 (fresh false)) = Returned r
    /\ status r = FAILED
    /\ start_time r = Some "1000000"
    /\ end_time r = Some "2000000"
    /\ duration_seconds r = None.
Proof.
  exact (caught_exception_leaves_no_duration no_log_world (fresh false) 1 phase_1_info
           "Permission denied" eq_refl eq_refl eq_refl).
Defined.

(** C2. Over a store without records, with phase 1's command exiting with
    status 0 and phase 2's with a status other than 0, the run "1-3"
    executes phase 1, recorded completed, then phase 2, recorded failed,
    and stops: no child process and no log file is made for phase 3, the
    console tells how to resume from phase 3, and the store, saved in the
    progress file, holds exactly those two records. *)
Theorem failure_halts_the_plan (w : World) (self : Orchestrator) (return_code : Z) :
  reads_back w ->
  dry_run self = false ->
  results self = [] ->
  process w 1 = Exits 0 ->
  process w 2 = Exits return_code ->
  return_code <> 0 ->
  let self' := snd (run_phases w "1-3" self) in
  fst (run_phases w "1-3" self) = Returned tt
  /\ results self'
     = [exit_record w 1 phase_1_info 0 (ticks self);
        exit_record w 2 phase_2_info return_code (4 + ticks self)]
  /\ map status (results self') = [COMPLETED; FAILED]
  /\ List.length (results self') = 2%nat
  /\ synced self'
  /\ exists new,
       trace self' = (trace self ++ new)%list
       /\ Forall (fun ev => spawns_for 3 ev = false) new
       /\ In (Popen 1 "claude /docjays-phase1") new
       /\ In (Popen 2 "claude /docjays-phase2") new
       /\ In (Print (ResumeHint 3)) new.
Proof.
  intros Hrb Hdry Hrs H1 H2 Hrc. cbv zeta.
  destruct self as [d rs f t tr]. cbn [dry_run results] in Hdry, Hrs. subst d rs.
  assert (Hz : (return_code =? 0) = false) by now apply Z.eqb_neq.
  remember (run_phases w "1-3" (mkOrchestrator false [] f t tr)) as out eqn:E.
  rewrite (run_phases_eq w "1-3" [1; 2; 3] _ eq_refl) in E.
  cbn [run_loop] in E. unfold bind at 1 in E.
  match type of E with
  | context [loop_body w ?plan ?p ?s] =>
      rewrite (loop_body_execute w plan p s eq_refl eq_refl) in E;
      rewrite (execute_phase_exits w s 1 phase_1_info 0 Hrb eq_refl eq_refl H1) in E
  end.
  cbn [negb is_status status exit_record PhaseStatus_eqb Z.eqb] in E.
  unfold bind at 1 in E.
  match type of E with
  | context [loop_body w ?plan ?p ?s] =>
      rewrite (loop_body_execute w plan p s eq_refl eq_refl) in E;
      rewrite (execute_phase_exits w s 2 phase_2_info return_code Hrb eq_refl eq_refl H2) in E
  end.
  unfold is_status at 1 in E. unfold exit_record at 1 in E.
  cbn [status] in E. rewrite Hz in E.
  cbn [PhaseStatus_eqb negb] in E. unfold ret at 1 in E.
  rewrite generate_report_eq in E.
  unfold after_phase, recorded, with_event, exit_record, is_status, has_duration in E.
  cbn in E. rewrite ?Hz in E. cbn in E. rewrite ?Hz in E. cbn in E.
  subst out. cbn [fst snd results trace progress_file ticks].
  unfold exit_record. rewrite Hz. cbn [Z.eqb Nat.add name command phase_1_info phase_2_info].
  split; [reflexivity|]. split; [reflexivity|]. split; [reflexivity|].
  split; [reflexivity|]. split; [eexists; reflexivity|].
  rewrite <- !app_assoc. eexists. split; [reflexivity|].
  split; [repeat constructor|].
  cbn [app In].
  repeat split; repeat (first [left; reflexivity | right]).
Qed.

Lemma failure_halts_the_plan_witness :
  process failing_world 2 = Exits 3
  /\ map status (results (snd (run_phases failing_world "1-3" (fresh false))))
     = [COMPLETED; FAILED].
Proof.
  split; [reflexivity|].
  apply (failure_halts_the_plan failing_world (fresh false) 3);
    [apply sample_world_reads_back|reflexivity|reflexivity|reflexivity|reflexivity|lia].
Defined.

(** ** Resuming *)

Lemma range_from (k : Z) : 1 <= k -> range k (7 + 1) = resume_plan_spec k.
Proof.
  intros Hk. destruct (Z_lt_le_dec 7 k) as [Hbig|Hsmall].
  - unfold range, resume_plan_spec. replace (Z.to_nat (7 + 1 - k)) with 0%nat by lia.
    cbn [seq map PHASES_keys PHASES filter fst].
    repeat match goal with
           | |- context [k <=? ?n] => replace (k <=? n) with false by (symmetry; apply Z.leb_gt; lia)
           end.
    reflexivity.
  - assert (H : k = 1 \/ k = 2 \/ k = 3 \/ k = 4 \/ k = 5 \/ k = 6 \/ k = 7) by lia.
    destruct H as [H|[H|[H|[H|[H|[H|H]]]]]]; subst k; reflexivity.
Qed.

Lemma lower_digits_not_all (s t : string) :
  s <> EmptyString -> Text.all Text.is_digit s = true ->
  String.eqb (Text.lower (s ++ t)) "all" = false.
Proof.
  destruct s as [|c r]; [congruence|]. intros _ H.
  cbn [Text.all] in H. apply andb_prop in H. destruct H as [Hc _].
  destruct (TextFacts.digit_plain c Hc) as (_ & _ & _ & Hl & Ha).
  change (String c r ++ t)%string with (String c (r ++ t)).
  cbn [Text.lower]. rewrite Hl. cbn [String.eqb]. now rewrite Ha.
Qed.

Lemma unsigned_not_empty (k : Z) : 0 <= k -> Text.unsigned k <> EmptyString.
Proof.
  intros Hk H. pose proof (TextFacts.unsigned_value k false "" Hk) as Hv.
  rewrite H in Hv. discriminate Hv.
Qed.

(** The plan of the selection "K-M", for numbers that are not negative. *)
Lemma phases_to_run_range (k m : Z) :
  0 <= k -> 0 <= m ->
  phases_to_run (Text.str k ++ "-" ++ Text.str m) = Returned (range k (m + 1)).
Proof.
  intros Hk Hm. unfold phases_to_run.
  rewrite (TextFacts.str_unsigned k Hk).
  pose proof (TextFacts.unsigned_all_digits k Hk) as Hd.
  rewrite (lower_digits_not_all _ _ (unsigned_not_empty k Hk) Hd).
  change ("-" ++ Text.str m)%string with (String "-" (Text.str m)).
  rewrite TextFacts.contains_app. cbn [Text.contains].
  change (Ascii.eqb "-" "-") with true. cbn [orb]. rewrite orb_true_r.
  rewrite (TextFacts.split_digits_dash _ _ Hd).
  assert (Hs : Text.split "-" (Text.str m) = [Text.str m]).
  { rewrite (TextFacts.str_unsigned m Hm).
    pose proof (TextFacts.split_digits_dash (Text.unsigned m) "" (TextFacts.unsigned_all_digits m Hm))
      as H.
    cbn [Text.split] in H.
    clear - H. revert H. generalize (Text.unsigned m). intros u.
    induction u as [|c u IH]; cbn [String.append Text.split]; [reflexivity|].
    change (String c u ++ "-")%string with (String c (u ++ "-")). cbn [Text.split].
    destruct (Ascii.eqb c "-"); [intros H; inversion H|].
    destruct (Text.split "-" (u ++ "-")) as [|x xs] eqn:E1;
      [intros H; discriminate H|].
    intros H. inversion H. subst. specialize (IH eq_refl). now rewrite IH. }
  rewrite Hs. unfold unpack_two.
  rewrite <- (TextFacts.str_unsigned k Hk), !TextFacts.int_str_any. reflexivity.
Qed.

(** C8. With the catalog's identifiers 1 to 7, resuming from a phase [k]
    runs the selection "k-7", and the plan of that selection is the plan of
    resume mode: the catalog's identifiers from [k] on, ascending. *)
Theorem resume_is_range_to_last (k : Z) :
  1 <= k ->
  resume_selection k = (Text.str k ++ "-7")%string
  /\ phases_to_run (resume_selection k) = phases_to_run (Text.str k ++ "-7")
  /\ phases_to_run (Text.str k ++ "-7") = Returned (resume_plan_spec k)
  /\ forall w self,
       resume_from w k self
       = run_phases w (Text.str k ++ "-7")
           (with_event (Print (Resuming k (resume_plan_spec k))) self).
Proof.
  intros Hk. split; [reflexivity|]. split; [reflexivity|]. split.
  - change (Text.str k ++ "-7")%string with (Text.str k ++ "-" ++ Text.str 7)%string.
    rewrite phases_to_run_range by lia. now rewrite range_from.
  - intros w self. reflexivity.
Qed.

Lemma resume_is_range_to_last_witness :
  phases_to_run (resume_selection 5) = Returned [5; 6; 7].
Proof.
  destruct (resume_is_range_to_last 5 ltac:(lia)) as (_ & H1 & H2 & _).
  rewrite H1. exact H2.
Defined.

(** ** Exit status *)

Lemma timed_loop_body (w : World) (plan : list Z) (p : Z) (self : Orchestrator) :
  forallb timed_if_completed (results self) = true ->
  forallb timed_if_completed (results (snd (loop_body w plan p self))) = true.
Proof.
  intros H.
  assert (Hh : holds (dry_run self) (fun rs => forallb timed_if_completed rs = true)
                 (fun _ => True) (trace self) (progress_file self)
                 (snd (loop_body w plan p self))).
  { apply holds_loop_body; try (intros; exact I).
    - intros q r rs Hrs _ _ (_ & _ & Ht & _). now apply forallb_recorded.
    - repeat split; try assumption.
      + exists []. rewrite app_nil_r. split; [reflexivity|constructor].
      + now left. }
  destruct Hh as (_ & HR & _). exact HR.
Qed.

Lemma execute_phase_returns (w : World) (p : Z) (self : Orchestrator) :
  PHASES_mem p = true -> process w p <> Interrupted ->
  exists r, fst (execute_phase w p self) = Returned r.
Proof.
  intros Hm Hp. destruct (proj1 (PHASES_mem_get p) Hm) as [info Hinfo].
  destruct self as [d rs f t tr].
  unfold execute_phase, after_wait, except_branch, parse_time. rewrite Hinfo.
  unfold_monad. cbn [dry_run results progress_file trace ticks].
  repeat break_match; cbn [fst snd]; try (eexists; reflexivity); congruence.
Qed.

(** Without Ctrl-C, and with durations on the completed records, a turn of
    the loop returns: a failed phase is an answer, not an exception. *)
Lemma loop_body_returns (w : World) (plan : list Z) (p : Z) (self : Orchestrator) :
  uninterrupted w ->
  forallb timed_if_completed (results self) = true ->
  exists go_on, fst (loop_body w plan p self) = Returned go_on.
Proof.
  intros Hw Hwf. destruct (PHASES_mem p) eqn:Hm.
  - destruct (already_completed (find_existing p (results self))) as [e|] eqn:He.
    + rewrite (loop_body_completed w plan p e self Hm He).
      destruct (already_completed_some p _ e He) as (Hin & _ & Hs).
      rewrite forallb_forall in Hwf.
      pose proof (timed_completed_has_duration e (Hwf e Hin) Hs) as Hd.
      unfold has_duration in Hd. destruct (duration_seconds e); [|discriminate Hd].
      eexists. reflexivity.
    + rewrite (loop_body_execute w plan p self Hm He).
      destruct (execute_phase_returns w p self Hm (Hw p)) as [r Hr].
      destruct (execute_phase w p self) as [[r'|e] s1]; cbn [fst] in *;
        [eexists; reflexivity|discriminate Hr].
  - rewrite (loop_body_unknown w plan p self Hm). eexists. reflexivity.
Qed.

Lemma run_loop_returns (w : World) (plan todo : list Z) :
  uninterrupted w ->
  forall self,
    forallb timed_if_completed (results self) = true ->
    fst (run_loop w plan todo self) = Returned tt
    /\ forallb timed_if_completed (results (snd (run_loop w plan todo self))) = true.
Proof.
  intros Hw. induction todo as [|p rest IH]; intros self Hwf; [now split|].
  cbn [run_loop]. unfold bind.
  pose proof (timed_loop_body w plan p self Hwf) as Hwf'.
  destruct (loop_body_returns w plan p self Hw Hwf) as [go_on Hgo].
  destruct (loop_body w plan p self) as [[b|e] s1]; cbn [fst snd] in *;
    [|discriminate Hgo].
  destruct b; [now apply IH|now split].
Qed.

Lemma run_phases_returns (w : World) (phase_range : string) (plan : list Z)
    (self : Orchestrator) :
  uninterrupted w ->
  forallb timed_if_completed (results self) = true ->
  phases_to_run phase_range = Returned plan ->
  fst (run_phases w phase_range self) = Returned tt.
Proof.
  intros Hw Hwf Hplan. rewrite (run_phases_eq w phase_range plan self Hplan).
  destruct (run_loop_returns w plan plan Hw (with_event (Print (PhasesToRun plan)) self) Hwf)
    as [Hret Hwf'].
  destruct (run_loop w plan plan (with_event (Print (PhasesToRun plan)) self))
    as [[[]|e] s1]; cbn [fst snd] in *; [|discriminate Hret].
  rewrite generate_report_eq.
  assert (Hd : forallb has_duration (filter (is_status COMPLETED) (results s1)) = true).
  { apply forallb_forall. intros r Hr. apply filter_In in Hr. destruct Hr as [Hin Hs].
    rewrite forallb_forall in Hwf'.
    apply timed_completed_has_duration; [now apply Hwf'|]. now apply PhaseStatus_eqb_eq. }
  now rewrite Hd.
Qed.

Lemma resume_from_returns (w : World) (k : Z) (self : Orchestrator) :
  uninterrupted w ->
  forallb timed_if_completed (results self) = true ->
  1 <= k ->
  fst (resume_from w k self) = Returned tt.
Proof.
  intros Hw Hwf Hk. unfold resume_from, bind, emit.
  apply (run_phases_returns w (resume_selection k) (range k (7 + 1))); try assumption.
  unfold resume_selection.
  change (Text.str (list_max 0 PHASES_keys)) with (Text.str 7).
  apply phases_to_run_range; lia.
Qed.

(** C1, as the code has it.  The exit status is 2 on a command line with
    neither a selection nor a phase to resume from.  Otherwise it is 1 when
    the project marker is missing, when loading the progress file raises,
    and when the controller leaves by an exception or by Ctrl-C; and it is
    0 whenever the controller returns, under [--phase] as under
    [--resume-from].  The controller returns from every run with a
    well-formed selection that nobody interrupts, whatever the phases'
    commands exit with: a failed phase halts the plan and does not change
    the exit status. *)
Theorem exit_status (w : World) (args : Args) (marker : bool) (file : option json) :
  let x := main w args marker file in
  (usable args = false -> exit_code x = 2)
  /\ (usable args = true -> marker = false -> exit_code x = 1)
  /\ (usable args = true -> marker = true ->
      forall o s0,
        new_orchestrator w (arg_dry_run args) file = (o, s0) ->
        ((forall data, file = Some data -> typed_data data = true) ->
         forall e, o = Raised e -> exit_code x = 1)
        /\ (o = Returned tt ->
            forall e s1, controller w args s0 = (Raised e, s1) -> exit_code x = 1)
        /\ (o = Returned tt ->
            forall s1, controller w args s0 = (Returned tt, s1) -> exit_code x = 0)
        /\ (o = Returned tt ->
            uninterrupted w ->
            forallb timed_if_completed (results s0) = true ->
            (truthy_int (arg_resume_from args) = false
             /\ exists phase_range plan,
                  arg_phase args = Some phase_range
                  /\ phases_to_run phase_range = Returned plan)
            \/ (exists k, arg_resume_from args = Some k /\ 1 <= k) ->
            exit_code x = 0)).
Proof.
  cbv zeta. unfold main, usable.
  destruct (negb (truthy_str (arg_phase args)) && negb (truthy_int (arg_resume_from args)));
    cbn [negb].
  { split; [reflexivity|]. split; intros H; discriminate H. }
  split; [intros H; discriminate H|]. split.
  { intros _ ->. reflexivity. }
  intros _ -> o s0 H0. cbn [negb]. rewrite H0.
  assert (Hret : forall s1, controller w args s0 = (Returned tt, s1) ->
                 exit_code
                   match controller w args s0 with
                   | (Returned _, self) => mkExit 0 (Some self)
                   | (Raised KeyboardInterrupt, self) =>
                       mkExit 1 (Some (snd ((emit (Print Interrupted_by_user) ;;
                                             save_progress w ;;
                                             generate_report w) self)))
                   | (Raised e, self) =>
                       mkExit 1 (Some (snd ((emit (Print (FatalError (exn_str e))) ;;
                                             save_progress w) self)))
                   end = 0).
  { intros s1 H1. rewrite H1. reflexivity. }
  split; [|split; [|split]].
  - intros _ e ->. reflexivity.
  - intros -> e s1 H1. rewrite H1. destruct e; reflexivity.
  - intros ->. exact Hret.
  - intros -> Hw Hwf Hsel.
    assert (Hc : fst (controller w args s0) = Returned tt).
    { unfold controller. destruct Hsel as [(Hres & sel & plan & Hsel & Hplan)|(k & Hres & Hk)].
      - rewrite Hres, Hsel. now apply (run_phases_returns w sel plan).
      - rewrite Hres. replace (truthy_int (Some k)) with true
          by (destruct k; try reflexivity; lia).
        now apply resume_from_returns. }
    destruct (controller w args s0) as [[[]|e] s1] eqn:Hctl; cbn [fst] in Hc;
      [reflexivity|discriminate Hc].
Qed.

Lemma exit_status_witness :
  exit_code (main failing_world only_phase_2 true None) = 0.
Proof.
  refine (proj2 (proj2 (proj2
            (proj2 (proj2 (exit_status failing_world only_phase_2 true None))
               eq_refl eq_refl (Returned tt) (fresh false) eq_refl)))
            eq_refl _ eq_refl _).
  - intros p. unfold failing_world, sample_world. cbn [process].
    destruct (p =? 2); discriminate.
  - left. split; [reflexivity|]. exists "2", [2]. split; reflexivity.
Defined.

(** C1, as stated, fails.  [--phase 2] in a world where phase 2's command
    exits with status 3: the run records phase 2 as failed, and the exit
    status is 0. *)
Lemma failed_phase_exits_zero :
  exit_code (main failing_world only_phase_2 true None) = 0
  /\ option_map (fun self => map status (results self))
       (final (main failing_world only_phase_2 true None))
     = Some [FAILED].
Proof. split; vm_compute; reflexivity. Qed.

(** ** A completed record without a duration *)

(** The notice for a completed phase prints the record's duration: on a
    record without one the loop leaves by [TypeError], and nothing of the
    rest of the plan is looked at. *)
Lemma loop_stops_at_untimed_completed (w : World) (plan : list Z) (p : Z) (rest : list Z)
    (self : Orchestrator) (e : PhaseResult) :
  PHASES_mem p = true ->
  find_existing p (results self) = Some e ->
  status e = COMPLETED ->
  duration_seconds e = None ->
  run_loop w plan (p :: rest) self
  = (Raised (TypeError "unsupported format string passed to NoneType.__format__"),
     with_event (Print (AlreadyCompleted p)) self).
Proof.
  intros Hm He Hs Hd. cbn [run_loop]. unfold bind.
  rewrite (loop_body_completed w plan p e self Hm (completed_is_found p e _ He Hs)).
  now rewrite Hd.
Qed.

(** C6, where the code departs from it.  A completed record without a
    duration, which [load_progress] accepts (it reads [duration_seconds]
    with [r.get]), stops the run: when the plan begins with such a phase,
    [run_phases] raises [TypeError] from the notice that the phase is
    skipped, with the store as it was and nothing but the two console lines
    done; the controller does not move on to the next planned phase. *)
Theorem completed_without_duration_stops_the_run (w : World) (self : Orchestrator)
    (phase_range : string) (p : Z) (rest : list Z) (e : PhaseResult) :
  phases_to_run phase_range = Returned (p :: rest) ->
  PHASES_mem p = true ->
  find_existing p (results self) = Some e ->
  status e = COMPLETED ->
  duration_seconds e = None ->
  fst (run_phases w phase_range self)
  = Raised (TypeError "unsupported format string passed to NoneType.__format__")
  /\ results (snd (run_phases w phase_range self)) = results self
  /\ trace (snd (run_phases w phase_range self))
     = (trace self ++ [Print (PhasesToRun (p :: rest)); Print (AlreadyCompleted p)])%list.
Proof.
  intros Hplan Hm He Hs Hd.
  rewrite (run_phases_eq w phase_range (p :: rest) self Hplan).
  rewrite (loop_stops_at_untimed_completed w (p :: rest) p rest
             (with_event (Print (PhasesToRun (p :: rest))) self) e Hm He Hs Hd).
  cbn [fst snd with_event results trace]. repeat split.
  now rewrite <- app_assoc.
Qed.

Lemma completed_without_duration_stops_the_run_witness :
  fst (run_phases calm_world "1-2" (untimed_store false))
  = Raised (TypeError "unsupported format string passed to NoneType.__format__").
Proof.
  exact (proj1 (completed_without_duration_stops_the_run calm_world (untimed_store false)
                  "1-2" 1 [2] untimed_completed_1
                  eq_refl eq_refl eq_refl eq_refl eq_refl)).
Defined.

(** The store of the lemma above is the one the script loads from a typed
    progress file, and [main] over that file exits with status 1 without
    having started a command. *)
Example untimed_file_is_loadable :
  typed_data untimed_file = true
  /\ new_orchestrator calm_world false (Some untimed_file)
     = (Returned tt, untimed_store false)
  /\ exit_code (main calm_world (phases_1_2 false) true (Some untimed_file)) = 1
  /\ existsb spawns (effects (main calm_world (phases_1_2 false) true (Some untimed_file)))
     = false.
Proof. repeat split; vm_compute; reflexivity. Qed.

(** C10, where the code departs from it.  In a dry run whose plan begins
    with a phase recorded as completed without a duration, the run raises
    [TypeError] at that phase; a planned phase further on whose record says
    failed keeps that record, with its error message and log path, and the
    progress file is not rewritten. *)
Theorem dry_run_cut_short_keeps_failure (w : World) (self : Orchestrator)
    (phase_range : string) (q : Z) (rest : list Z) (c : PhaseResult)
    (p : Z) (e : PhaseResult) :
  dry_run self = true ->
  phases_to_run phase_range = Returned (q :: rest) ->
  PHASES_mem q = true ->
  find_existing q (results self) = Some c ->
  status c = COMPLETED ->
  duration_seconds c = None ->
  In p rest ->
  find_existing p (results self) = Some e ->
  status e = FAILED ->
  fst (run_phases w phase_range self)
  = Raised (TypeError "unsupported format string passed to NoneType.__format__")
  /\ results (snd (run_phases w phase_range self)) = results self
  /\ find_existing p (results (snd (run_phases w phase_range self))) = Some e
  /\ progress_file (snd (run_phases w phase_range self)) = progress_file self
  /\ trace (snd (run_phases w phase_range self))
     = (trace self ++ [Print (PhasesToRun (q :: rest)); Print (AlreadyCompleted q)])%list.
Proof.
  intros _ Hplan Hm Hc Hs Hd _ He Hf.
  rewrite (run_phases_eq w phase_range (q :: rest) self Hplan).
  rewrite (loop_stops_at_untimed_completed w (q :: rest) q rest
             (with_event (Print (PhasesToRun (q :: rest))) self) c Hm Hc Hs Hd).
  cbn [fst snd with_event results progress_file trace].
  split; [reflexivity|]. split; [reflexivity|]. split; [exact He|].
  split; [reflexivity|]. now rewrite <- app_assoc.
Qed.

Lemma dry_run_cut_short_keeps_failure_witness :
  find_existing 2 (results (snd (run_phases calm_world "1-2" (untimed_store true))))
  = Some failed_2.
Proof.
  exact (proj1 (proj2 (proj2
           (dry_run_cut_short_keeps_failure calm_world (untimed_store true) "1-2" 1 [2]
              untimed_completed_1 2 failed_2
              eq_refl eq_refl eq_refl eq_refl eq_refl eq_refl
              (or_introl eq_refl) eq_refl eq_refl)))).
Defined.

(** * Further properties of the orchestrator *)

(** ** What a run does to the store *)

Lemma filter_drop_first_other (f : PhaseResult -> bool) (n : Z) (rs : list PhaseResult) :
  (forall r, phase_number r = n -> f r = false) ->
  filter f (drop_first_record n rs) = filter f rs.
Proof.
  intros Hf. induction rs as [|r rs IH]; cbn [drop_first_record filter]; [reflexivity|].
  destruct (phase_number r =? n) eqn:E.
  - apply Z.eqb_eq in E. now rewrite (Hf r E).
  - cbn [filter]. now rewrite IH.
Qed.

Lemma recorded_by_number (q : Z) (r : PhaseResult) (rs : list PhaseResult) :
  phase_number r = q ->
  recorded (find_existing q rs) r rs = (drop_first_record q rs ++ [r])%list.
Proof. intros <-. apply recorded_eq. Qed.

(** X1. An identifier outside the catalog never runs: whatever the
    selection, a run adds no record for it, removes none, and creates no
    child process and no log file for it; when the loop meets it, it prints
    the warning and goes on with the rest of the plan. *)
Theorem unknown_phase_never_runs (w : World) (self : Orchestrator) (phase_range : string)
    (p : Z) :
  PHASES_mem p = false ->
  let self' := snd (run_phases w phase_range self) in
  filter (fun r => phase_number r =? p) (results self')
  = filter (fun r => phase_number r =? p) (results self)
  /\ (exists new,
        trace self' = (trace self ++ new)%list
        /\ Forall (fun ev => spawns_for p ev = false) new)
  /\ forall plan rest,
       run_loop w plan (p :: rest) self
       = run_loop w plan rest (with_event (Print (NotFoundSkipping p)) self).
Proof.
  intros Hp. cbv zeta.
  assert (Hne : forall q, PHASES_mem q = true -> q <> p) by (intros q Hq ->; congruence).
  assert (H : holds (dry_run self)
                (fun rs => filter (fun r => phase_number r =? p) rs
                           = filter (fun r => phase_number r =? p) (results self))
                (fun ev => spawns_for p ev = false) (trace self) (progress_file self)
                (snd (run_phases w phase_range self))).
  { apply holds_run_phases; try reflexivity.
    - intros q r rs Hrs Hq _ (Hn & _). rewrite (recorded_by_number q r rs Hn).
      rewrite filter_app. cbn [filter].
      replace (phase_number r =? p) with false
        by (symmetry; apply Z.eqb_neq; rewrite Hn; now apply Hne).
      rewrite app_nil_r, filter_drop_first_other; [exact Hrs|].
      intros x Hx. apply Z.eqb_neq. rewrite Hx. now apply Hne.
    - intros q ev rs _ _ Hq _ Hev. apply (spawns_for_other p q); [now apply Hne|exact Hev].
    - repeat split; try assumption.
      + exists []. rewrite app_nil_r. split; [reflexivity|constructor].
      + now left. }
  destruct H as (_ & HR & Htrace & _). split; [exact HR|]. split; [exact Htrace|].
  intros plan rest. cbn [run_loop]. unfold bind.
  now rewrite (loop_body_unknown w plan p self Hp).
Qed.

Lemma unknown_phase_never_runs_witness :
  filter (fun r => phase_number r =? 9)
    (results (snd (run_phases calm_world "9" (sample_store false))))
  = filter (fun r => phase_number r =? 9) (results (sample_store false)).
Proof.
  exact (proj1 (unknown_phase_never_runs calm_world (sample_store false) "9" 9 eq_refl)).
Defined.

Lemma In_numbers_recorded (q n : Z) (r : PhaseResult) (rs : list PhaseResult) :
  phase_number r = q ->
  In n (map phase_number rs) ->
  In n (map phase_number (recorded (find_existing q rs) r rs)).
Proof.
  intros Hr Hin. rewrite (recorded_by_number q r rs Hr), map_app. apply in_or_app.
  destruct (Z.eq_dec n q) as [->|Hnq]; [right; left; exact Hr|]. left.
  clear Hr. induction rs as [|x rs IH]; cbn [map drop_first_record] in *; [contradiction|].
  destruct (phase_number x =? q) eqn:E.
  - apply Z.eqb_eq in E. destruct Hin as [Hin|Hin]; [congruence|exact Hin].
  - cbn [map]. destruct Hin as [Hin|Hin]; [now left|right; now apply IH].
Qed.

(** X2. A run never drops a phase from the store: every phase identifier
    that has a record before [run_phases] has one after it, whatever the
    selection and whatever happens to the commands. *)
Theorem run_keeps_every_phase (w : World) (self : Orchestrator) (phase_range : string) :
  incl (map phase_number (results self))
       (map phase_number (results (snd (run_phases w phase_range self)))).
Proof.
  assert (H : holds (dry_run self)
                (fun rs => incl (map phase_number (results self)) (map phase_number rs))
                (fun _ => True) (trace self) (progress_file self)
                (snd (run_phases w phase_range self))).
  { apply holds_run_phases; try (intros; exact I).
    - intros q r rs Hrs _ _ (Hn & _) n Hin. apply In_numbers_recorded; [exact Hn|].
      now apply Hrs.
    - repeat split; try assumption.
      + apply incl_refl.
      + exists []. rewrite app_nil_r. split; [reflexivity|constructor].
      + now left. }
  destruct H as (_ & HR & _). exact HR.
Qed.

(** X3. One record per phase is an invariant of the script: started on a
    progress file whose records have distinct phase identifiers (or on no
    file), [main] ends with a store whose records have distinct phase
    identifiers. *)
Theorem main_keeps_one_record_per_phase (w : World) (args : Args) (marker : bool)
    (file : option json) (self : Orchestrator) :
  (forall data rs,
      file = Some data -> results_of_data data = Returned rs ->
      NoDup (map phase_number rs)) ->
  final (main w args marker file) = Some self ->
  NoDup (map phase_number (results self)).
Proof.
  intros Hfile Hfinal.
  assert (H : holds (arg_dry_run args) (fun rs => NoDup (map phase_number rs))
                (fun _ => True) [] file self).
  { apply (holds_main w (arg_dry_run args) (fun rs => NoDup (map phase_number rs))
             (fun _ => True) [] file) with (args := args) (marker := marker);
      try reflexivity; try (intros; exact I); try assumption.
    - intros p r rs Hrs _ _ (Hn & _). now apply NoDup_recorded.
    - constructor. }
  destruct H as (_ & HR & _). exact HR.
Qed.

Lemma main_keeps_one_record_per_phase_witness :
  match final (main failing_world (mkArgs (Some "1-3") None false) true None) with
  | Some self => NoDup (map phase_number (results self))
  | None => True
  end.
Proof.
  destruct (final (main failing_world (mkArgs (Some "1-3") None false) true None))
    as [self|] eqn:E; [|exact I].
  apply (main_keeps_one_record_per_phase failing_world (mkArgs (Some "1-3") None false)
           true None self); [|exact E].
  intros data rs H. discriminate H.
Defined.

(** ** What [execute_phase] returns *)

(** X4. The shape of a record made by [execute_phase]: it is the record of
    the phase asked for, under the catalog's name, with the command on
    record; it carries an error message exactly when its status is failed;
    it is skipped exactly in a dry run; a completed record has both
    timestamps, a duration and a log path; and a log path is only ever
    recorded together with a duration. *)
Theorem produced_record_shape (w : World) (self : Orchestrator) (p : Z) (r : PhaseResult) :
  fst (execute_phase w p self) = Returned r ->
  (exists info, PHASES_get p = Some info /\ phase_name r = name info)
  /\ phase_number r = p
  /\ command_used r <> None
  /\ (error_message r <> None <-> status r = FAILED)
  /\ (status r = SKIPPED <-> dry_run self = true)
  /\ (status r = COMPLETED ->
      start_time r <> None /\ end_time r <> None
      /\ duration_seconds r <> None /\ output_file r <> None
      /\ process w p = Exits 0)
  /\ (output_file r <> None -> duration_seconds r <> None).
Proof.
  destruct self as [d rs f t tr].
  unfold execute_phase, after_wait, except_branch, parse_time.
  unfold_monad. cbn [dry_run results progress_file trace ticks].
  repeat break_match; cbn [fst snd]; intros H; inversion H; subst r;
    cbn [phase_number phase_name status start_time end_time duration_seconds
         error_message command_used output_file set_status set_start_time
         set_end_time set_duration_seconds set_error_message set_command_used
         set_output_file new_PhaseResult dry_run] in *;
    repeat match goal with
           | E : (_ =? 0) = true |- _ => apply Z.eqb_eq in E; subst
           end;
    (split; [eexists; split; reflexivity|]);
    repeat split; intros; try congruence; try discriminate.
Qed.

Lemma produced_record_shape_witness :
  match fst (execute_phase calm_world 3 (fresh false)) with
  | Returned r => phase_number r = 3 /\ command_used r <> None
  | Raised _ => False
  end.
Proof.
  destruct (fst (execute_phase calm_world 3 (fresh false))) as [r|e] eqn:E;
    [|vm_compute in E; discriminate E].
  destruct (produced_record_shape calm_world (fresh false) 3 r E) as (_ & Hn & Hc & _).
  split; assumption.
Defined.

(** X5. Only Ctrl-C escapes from [execute_phase] for a phase of the
    catalog: if it raises, the exception is [KeyboardInterrupt], the run is
    not a dry run and the phase's command was interrupted; every other
    failure comes back as a record.  For an identifier outside the catalog
    it raises [ValueError] and touches nothing. *)
Theorem execute_phase_escapes (w : World) (self : Orchestrator) (p : Z) :
  (PHASES_mem p = true ->
   forall e, fst (execute_phase w p self) = Raised e ->
             e = KeyboardInterrupt /\ dry_run self = false /\ process w p = Interrupted)
  /\ (PHASES_mem p = false ->
      execute_phase w p self
      = (Raised (ValueError ("Invalid phase number: " ++ Text.str p)), self)).
Proof.
  split.
  - intros Hm e. destruct (proj1 (PHASES_mem_get p) Hm) as [info Hinfo].
    destruct self as [d rs f t tr].
    unfold execute_phase, after_wait, except_branch, parse_time. rewrite Hinfo.
    unfold_monad. cbn [dry_run results progress_file trace ticks].
    repeat break_match; cbn [fst snd]; intros H; inversion H; subst; repeat split.
  - intros Hm. unfold execute_phase.
    destruct (PHASES_get p) as [info|] eqn:E; [|reflexivity].
    pose proof (proj2 (PHASES_mem_get p) (ex_intro _ info E)). congruence.
Qed.

Lemma execute_phase_escapes_witness :
  execute_phase calm_world 8 (fresh false)
  = (Raised (ValueError "Invalid phase number: 8"), fresh false).
Proof.
  exact (proj2 (execute_phase_escapes calm_world (fresh false) 8) eq_refl).
Defined.

(** X6. The status follows the exit code.  Outside a dry run, when the
    command of a catalog phase exits with [return_code] (and timestamps can
    be read back), the record is completed if the code is 0 and failed
    otherwise, the error message then spelling the code; in both cases the
    duration is the end reading of the clock minus the start reading, and
    one child process and one log file were created. *)
Theorem status_follows_exit_code (w : World) (self : Orchestrator) (p : Z)
    (info : PhaseInfo) (return_code : Z) :
  reads_back w ->
  dry_run self = false ->
  PHASES_get p = Some info ->
  process w p = Exits return_code ->
  exists r,
    fst (execute_phase w p self) = Returned r
    /\ (status r = COMPLETED <-> return_code = 0)
    /\ (return_code <> 0 ->
        status r = FAILED
        /\ error_message r = Some ("Command exited with code " ++ Text.str return_code))
    /\ duration_seconds r = Some (clock w (S (S (ticks self))) - clock w (S (ticks self)))
    /\ exists cmd path,
         trace (snd (execute_phase w p self))
         = (trace self ++ [Popen p cmd; LogFile p path])%list
         /\ output_file r = Some path.
Proof.
  intros Hrb Hdry Hp Hproc.
  rewrite (execute_phase_exits w self p info return_code Hrb Hdry Hp Hproc).
  cbn [fst snd trace]. eexists. split; [reflexivity|].
  unfold exit_record. cbn [status error_message duration_seconds output_file].
  destruct (return_code =? 0) eqn:E.
  - apply Z.eqb_eq in E. repeat split; try congruence.
    do 2 eexists. split; reflexivity.
  - apply Z.eqb_neq in E. repeat split; try congruence; try discriminate.
    do 2 eexists. split; reflexivity.
Qed.

Lemma status_follows_exit_code_witness :
  exists r,
    fst (execute_phase failing_world 2 (fresh false)) = Returned r
    /\ status r = FAILED
    /\ error_message r = Some "Command exited with code 3".
Proof.
  destruct (status_follows_exit_code failing_world (fresh false) 2 phase_2_info 3
              (sample_world_reads_back _) eq_refl eq_refl eq_refl)
    as (r & Hr & _ & Hfail & _).
  exists r. split; [exact Hr|]. apply Hfail. lia.
Defined.

(** X7. A command that cannot be launched is a failed record, not a crash:
    when [subprocess.Popen] raises, [execute_phase] returns a failed record
    whose error message is the exception's text, with an end timestamp and
    without duration or log path, and neither a child process nor a log
    file has been created. *)
Theorem launch_failure_is_recorded (w : World) (self : Orchestrator) (p : Z)
    (info : PhaseInfo) (msg : string) :
  dry_run self = false ->
  PHASES_get p = Some info ->
  process w p = PopenRaises msg ->
  exists r,
    fst (execute_phase w p self) = Returned r
    /\ status r = FAILED
    /\ error_message r = Some msg
    /\ end_time r <> None
    /\ duration_seconds r = None
    /\ output_file r = None
    /\ trace (snd (execute_phase w p self)) = trace self
    /\ results (snd (execute_phase w p self)) = results self.
Proof.
  intros Hdry Hp Hproc. destruct self as [d rs f t tr]. cbn [dry_run] in Hdry. subst d.
  unfold execute_phase. rewrite Hp. unfold_monad.
  cbn [dry_run results progress_file ticks trace]. rewrite Hproc.
  unfold except_branch. unfold_monad. eexists. split; [reflexivity|].
  repeat split. discriminate.
Qed.

Lemma launch_failure_is_recorded_witness :
  exists r,
    fst (execute_phase (sample_world (fun _ => PopenRaises "No such directory")) 4
           (fresh false)) = Returned r
    /\ status r = FAILED
    /\ error_message r = Some "No such directory".
Proof.
  destruct (launch_failure_is_recorded (sample_world (fun _ => PopenRaises "No such directory"))
              (fresh false) 4
              (mkPhaseInfo "Decision Extraction" "docjays-phase4" "1-2 weeks"
                 "Auto-extract decisions from PRs, commits, documents")
              "No such directory" eq_refl eq_refl eq_refl)
    as (r & Hr & Hs & He & _).
  exists r. repeat split; assumption.
Defined.

Lemma execute_phase_duration_witness :
  exists s e ts te,
    start_time (exit_record calm_world 1 phase_1_info 0 0) = Some s
    /\ end_time (exit_record calm_world 1 phase_1_info 0 0) = Some e
    /\ fromisoformat calm_world s = Some ts /\ fromisoformat calm_world e = Some te
    /\ 1000000 = te - ts.
Proof.
  exact (execute_phase_duration calm_world (fresh false) 1
           (exit_record calm_world 1 phase_1_info 0 0) 1000000 eq_refl eq_refl).
Defined.

(** ** Progress is saved as it is made *)

Lemma untouched_or_synced_loop_body (w : World) (self : Orchestrator) (plan : list Z)
    (p : Z) (s : Orchestrator) :
  untouched_or_synced self s -> untouched_or_synced self (snd (loop_body w plan p s)).
Proof.
  intros H. destruct (PHASES_mem p) eqn:Hm.
  - destruct (already_completed (find_existing p (results s))) as [e|] eqn:He.
    + rewrite (loop_body_completed w plan p e s Hm He). exact H.
    + rewrite (loop_body_execute w plan p s Hm He).
      destruct (execute_phase_frame w s p) as (_ & F2 & F3 & _).
      destruct (execute_phase w p s) as [[r|e] s1]; cbn [snd] in *.
      * right. eexists. reflexivity.
      * unfold untouched_or_synced, synced in *. rewrite F2, F3. exact H.
  - rewrite (loop_body_unknown w plan p s Hm). exact H.
Qed.

(** X9. Progress is never only in memory.  After [run_phases], whatever the
    selection and however it ends, either the store and the progress file
    are both as they were, or the progress file holds exactly the store. *)
Theorem progress_is_saved_as_made (w : World) (self : Orchestrator) (phase_range : string) :
  untouched_or_synced self (snd (run_phases w phase_range self)).
Proof.
  unfold run_phases.
  destruct (phases_to_run phase_range) as [plan|e]; [|left; now split].
  assert (H0 : untouched_or_synced self self) by (left; now split).
  revert H0. generalize self at 2 4. intros s H0. revert s H0.
  apply (bind_invariant (untouched_or_synced self)).
  - intros s Hs. exact Hs.
  - intros _. apply (bind_invariant (untouched_or_synced self)).
    + intros s. apply (run_loop_invariant w (untouched_or_synced self) plan).
      intros p s'. apply untouched_or_synced_loop_body.
    + intros _ s Hs. rewrite generate_report_eq.
      destruct (forallb has_duration (filter (is_status COMPLETED) (results s)));
        exact Hs.
Qed.

(** X10. A failed phase ends the loop.  When the phase at the head of what
    is left of the plan is executed and comes back failed, the loop returns
    at once from the state in which that result is recorded and saved: what
    follows in the plan plays no part, and the last console line tells to
    resume from the next identifier. *)
Theorem failed_phase_ends_the_loop (w : World) (plan : list Z) (p : Z) (rest : list Z)
    (self : Orchestrator) (r : PhaseResult) :
  PHASES_mem p = true ->
  already_completed (find_existing p (results self)) = None ->
  fst (execute_phase w p self) = Returned r ->
  status r = FAILED ->
  run_loop w plan (p :: rest) self
  = (Returned tt,
     after_phase w plan p (find_existing p (results self)) r (snd (execute_phase w p self)))
  /\ exists before data,
       trace (snd (run_loop w plan (p :: rest) self))
       = (before ++ [ProgressWritten data; Print (StoppingDueToFailure p);
                     Print (ResumeHint (p + 1))])%list
       /\ progress_file (snd (run_loop w plan (p :: rest) self)) = Some data.
Proof.
  intros Hm He Hr Hs.
  assert (E : run_loop w plan (p :: rest) self
              = (Returned tt,
                 after_phase w plan p (find_existing p (results self)) r
                   (snd (execute_phase w p self)))).
  { cbn [run_loop]. unfold bind. rewrite (loop_body_execute w plan p self Hm He).
    destruct (execute_phase w p self) as [[r'|e] s1]; cbn [fst snd] in *;
      [|discriminate Hr].
    inversion Hr. subst r'. unfold is_status. rewrite Hs. reflexivity. }
  split; [exact E|]. rewrite E. cbn [snd]. unfold after_phase, is_status.
  rewrite Hs. cbn [PhaseStatus_eqb trace progress_file].
  do 2 eexists. split; reflexivity.
Qed.

Lemma failed_phase_ends_the_loop_witness :
  map phase_number (results (snd (run_loop failing_world [2; 3; 4] [2; 3; 4] (fresh false))))
  = [2].
Proof.
  rewrite (proj1 (failed_phase_ends_the_loop failing_world [2; 3; 4] 2 [3; 4] (fresh false)
                    (exit_record failing_world 2 phase_2_info 3 0)
                    eq_refl eq_refl eq_refl eq_refl)).
  reflexivity.
Defined.

(** X11. An interrupted phase leaves no record.  When Ctrl-C arrives while
    a phase's command runs, the loop body raises [KeyboardInterrupt] with
    the store and the progress file as they were: the child process and the
    log file exist, the result in flight is lost. *)
Theorem interrupted_phase_leaves_no_record (w : World) (plan : list Z) (p : Z)
    (info : PhaseInfo) (self : Orchestrator) :
  dry_run self = false ->
  PHASES_get p = Some info ->
  already_completed (find_existing p (results self)) = None ->
  process w p = Interrupted ->
  fst (loop_body w plan p self) = Raised KeyboardInterrupt
  /\ results (snd (loop_body w plan p self)) = results self
  /\ progress_file (snd (loop_body w plan p self)) = progress_file self
  /\ exists path,
       trace (snd (loop_body w plan p self))
       = (trace self ++ [Popen p ("claude /" ++ command info); LogFile p path])%list.
Proof.
  intros Hdry Hp He Hproc.
  pose proof (proj2 (PHASES_mem_get p) (ex_intro _ info Hp)) as Hm.
  rewrite (loop_body_execute w plan p self Hm He).
  destruct self as [d rs f t tr]. cbn [dry_run] in Hdry. subst d.
  unfold execute_phase. rewrite Hp. unfold_monad.
  cbn [dry_run results progress_file ticks trace]. rewrite Hproc.
  cbn [fst snd results progress_file trace]. repeat split.
  eexists. rewrite <- app_assoc. reflexivity.
Qed.

Lemma interrupted_phase_leaves_no_record_witness :
  results (snd (loop_body interrupting_world [1] 1 (sample_store false)))
  = results (sample_store false).
Proof.
  exact (proj1 (proj2 (interrupted_phase_leaves_no_record interrupting_world [1] 1
                         phase_1_info (sample_store false)
                         eq_refl eq_refl eq_refl eq_refl))).
Defined.

(** X12. [main] saves what it has when the run is cut short.  When the
    controller raises, by an exception or by Ctrl-C, the process exits with
    status 1, the store is the one the controller left, and the progress
    file holds that store; for an exception other than Ctrl-C a fatal-error
    line and the save are all that follows: no report is written. *)
Theorem main_saves_when_cut_short (w : World) (args : Args) (file : option json)
    (s0 s1 : Orchestrator) (e : exn) :
  usable args = true ->
  new_orchestrator w (arg_dry_run args) file = (Returned tt, s0) ->
  controller w args s0 = (Raised e, s1) ->
  exit_code (main w args true file) = 1
  /\ exists s2,
       final (main w args true file) = Some s2
       /\ results s2 = results s1
       /\ synced s2
       /\ (e <> KeyboardInterrupt ->
           exists data,
             trace s2 = (trace s1 ++ [Print (FatalError (exn_str e)); ProgressWritten data])%list).
Proof.
  intros Hu H0 H1. unfold main. unfold usable in Hu.
  destruct (negb (truthy_str (arg_phase args)) && negb (truthy_int (arg_resume_from args)));
    [discriminate Hu|].
  cbn [negb]. rewrite H0, H1.
  assert (Hfatal :
            let s2 := snd ((emit (Print (FatalError (exn_str e))) ;; save_progress w) s1) in
            results s2 = results s1 /\ synced s2
            /\ exists data,
                 trace s2
                 = (trace s1 ++ [Print (FatalError (exn_str e)); ProgressWritten data])%list).
  { cbv zeta. unfold bind, emit. rewrite save_progress_eq. cbv zeta.
    cbn [snd results progress_file trace ticks]. split; [reflexivity|].
    split; [eexists; reflexivity|]. eexists. rewrite <- app_assoc. reflexivity. }
  assert (Hint :
            let s2 := snd ((emit (Print Interrupted_by_user) ;; save_progress w ;;
                            generate_report w) s1) in
            results s2 = results s1 /\ synced s2).
  { cbv zeta. unfold bind, emit. rewrite save_progress_eq. cbv beta iota zeta.
    rewrite generate_report_eq.
    cbn [results progress_file trace ticks].
    destruct (forallb has_duration (filter (is_status COMPLETED) (results s1)));
      cbn [snd results progress_file]; (split; [reflexivity|eexists; reflexivity]). }
  cbv zeta in Hfatal, Hint. destruct Hfatal as (F1 & F2 & F3). destruct Hint as (I1 & I2).
  destruct e; cbn [exit_code final]; (split; [reflexivity|]);
    eexists; (split; [reflexivity|]); (split; [assumption|]); (split; [assumption|]);
    intros Hne; try exact F3; congruence.
Qed.

Lemma main_saves_when_cut_short_witness :
  exit_code (main interrupting_world (mkArgs (Some "1") None false) true None) = 1.
Proof.
  refine (proj1 (main_saves_when_cut_short interrupting_world (mkArgs (Some "1") None false)
                   None (fresh false) _ KeyboardInterrupt eq_refl eq_refl _)).
  vm_compute. reflexivity.
Defined.

(** ** Loading the progress file *)

Lemma dict_get_skip (key k : string) (v : json) (l1 l2 : list (string * json)) :
  String.eqb k key = false ->
  dict_get key (l1 ++ (k, v) :: l2) = dict_get key (l1 ++ l2).
Proof.
  intros Hk. induction l1 as [|[k' v'] l1 IH]; cbn [app dict_get].
  - now rewrite Hk.
  - destruct (String.eqb k' key); [reflexivity|exact IH].
Qed.

Lemma dict_get_null (key k : string) (l : list (string * json)) :
  dict_get key (l ++ [(k, JNull)]) = dict_get key l
  \/ (dict_get key l = None /\ dict_get key (l ++ [(k, JNull)]) = Some JNull).
Proof.
  induction l as [|[k' v'] l IH]; cbn [app dict_get].
  - destruct (String.eqb k key); [right; now split|now left].
  - destruct (String.eqb k' key); [now left|exact IH].
Qed.

Lemma optional_str_null (key k : string) (l : list (string * json)) :
  optional_str key (l ++ [(k, JNull)]) = optional_str key l.
Proof.
  unfold optional_str. destruct (dict_get_null key k l) as [->|[-> ->]]; reflexivity.
Qed.

Lemma optional_float_null (key k : string) (l : list (string * json)) :
  optional_float key (l ++ [(k, JNull)]) = optional_float key l.
Proof.
  unfold optional_float. destruct (dict_get_null key k l) as [->|[-> ->]]; reflexivity.
Qed.

(** X13. The progress file is read with tolerance.  A field under a key
    the script does not know is ignored, wherever it stands in the record
    and whatever it holds; and an explicit null under any key but the three
    required ones reads like a missing field. *)
Theorem load_tolerates_extra_fields (k : string) (v : json) (l1 l2 : list (string * json)) :
  (not_among (required_keys ++ optional_keys) k = true ->
   result_of_json (JObj (l1 ++ (k, v) :: l2)) = result_of_json (JObj (l1 ++ l2)))
  /\ (not_among required_keys k = true ->
      result_of_json (JObj (l1 ++ [(k, JNull)])) = result_of_json (JObj l1)).
Proof.
  split.
  - unfold not_among. cbn [required_keys optional_keys app existsb]. intros H.
    apply negb_true_iff in H. repeat (apply orb_false_elim in H; destruct H as [? H]).
    unfold result_of_json, required, optional_str, optional_float.
    rewrite !dict_get_skip by assumption. reflexivity.
  - unfold not_among. cbn [required_keys existsb]. intros H.
    apply negb_true_iff in H. repeat (apply orb_false_elim in H; destruct H as [? H]).
    unfold result_of_json, required.
    rewrite !(dict_get_skip _ k JNull l1 []) by assumption. rewrite !app_nil_r.
    rewrite !optional_str_null, optional_float_null. reflexivity.
Qed.

Lemma load_tolerates_extra_fields_witness :
  result_of_json (JObj [("phase_number", JInt 1); ("owner", JStr "ops");
                        ("phase_name", JStr "Database Foundation");
                        ("status", JStr "pending")])
  = Returned (new_PhaseResult 1 "Database Foundation" PENDING).
Proof.
  etransitivity;
    [exact (proj1 (load_tolerates_extra_fields "owner" (JStr "ops")
                     [("phase_number", JInt 1)]
                     [("phase_name", JStr "Database Foundation");
                      ("status", JStr "pending")]) eq_refl)
    |reflexivity].
Defined.

(** X14. A record of the progress file must have its three required keys
    and a known status: a record without [phase_number] raises [KeyError]
    for that key, and so, the earlier fields being in order, does one
    without [phase_name] or without [status]; a status that is none of the
    five values raises [ValueError]. *)
Theorem load_rejects_incomplete_records (fields : list (string * json)) (n : Z)
    (nm v : string) :
  (dict_get "phase_number" fields = None ->
   result_of_json (JObj fields) = Raised (KeyError "phase_number"))
  /\ (dict_get "phase_number" fields = Some (JInt n) ->
      dict_get "phase_name" fields = None ->
      result_of_json (JObj fields) = Raised (KeyError "phase_name"))
  /\ (dict_get "phase_number" fields = Some (JInt n) ->
      dict_get "phase_name" fields = Some (JStr nm) ->
      dict_get "status" fields = None ->
      result_of_json (JObj fields) = Raised (KeyError "status"))
  /\ (dict_get "phase_number" fields = Some (JInt n) ->
      dict_get "phase_name" fields = Some (JStr nm) ->
      dict_get "status" fields = Some (JStr v) ->
      PhaseStatus_of_value v = None ->
      result_of_json (JObj fields)
      = Raised (ValueError ("'" ++ v ++ "' is not a valid PhaseStatus"))).
Proof.
  unfold result_of_json, required. repeat split.
  - intros ->. reflexivity.
  - intros -> ->. reflexivity.
  - intros -> -> ->. reflexivity.
  - intros -> -> -> H. cbn [obind as_int as_str as_status]. now rewrite H.
Qed.

Lemma load_rejects_incomplete_records_witness :
  result_of_json (JObj [("phase_number", JInt 1); ("phase_name", JStr "x");
                        ("status", JStr "done")])
  = Raised (ValueError "'done' is not a valid PhaseStatus").
Proof.
  exact (proj2 (proj2 (proj2 (load_rejects_incomplete_records
                                [("phase_number", JInt 1); ("phase_name", JStr "x");
                                 ("status", JStr "done")] 1 "x" "done")))
           eq_refl eq_refl eq_refl eq_refl).
Defined.

(** X15. A progress file that cannot be loaded is fatal before any phase
    runs: for a file whose fields have the declared types, when loading
    raises (the document is not an object, an entry is not one, a required
    key is missing, the status is unknown), [main] on a usable command line
    in a marked project exits with status 1 without any effect, and the
    file stays as it was. *)
Theorem unloadable_progress_file_is_fatal (w : World) (args : Args) (data : json) (e : exn) :
  usable args = true ->
  typed_data data = true ->
  results_of_data data = Raised e ->
  exit_code (main w args true (Some data)) = 1
  /\ effects (main w args true (Some data)) = []
  /\ file_after (Some data) (main w args true (Some data)) = Some data.
Proof.
  intros Hu _ He. unfold main, usable in *.
  destruct (negb (truthy_str (arg_phase args)) && negb (truthy_int (arg_resume_from args)));
    [discriminate Hu|].
  cbn [negb]. unfold new_orchestrator, load_progress, bind, gets.
  cbn [progress_file]. rewrite He. unfold raise. repeat split.
Qed.

Lemma unloadable_progress_file_is_fatal_witness :
  exit_code (main calm_world (mkArgs (Some "all") None false) true (Some (JList []))) = 1.
Proof.
  exact (proj1 (unloadable_progress_file_is_fatal calm_world (mkArgs (Some "all") None false)
                  (JList []) (AttributeError "object has no attribute 'get'")
                  eq_refl eq_refl eq_refl)).
Defined.

(** X16. Status values are read back exactly: [PhaseStatus(v)] is a member
    precisely when [v] is that member's value, so no two spellings load as
    the same status. *)
Theorem status_value_is_exact (v : string) (s : PhaseStatus) :
  PhaseStatus_of_value v = Some s <-> v = PhaseStatus_value s.
Proof.
  split.
  - unfold PhaseStatus_of_value.
    repeat match goal with
           | |- context [String.eqb v ?x] =>
               let E := fresh "E" in
               destruct (String.eqb v x) eqn:E;
               [apply String.eqb_eq in E; intros H; inversion H; subst; reflexivity|]
           end.
    discriminate.
  - intros ->. apply PhaseStatus_value_roundtrip.
Qed.

(** ** Selections and plans *)

Lemma ascending_from (f : nat -> Z) (n s : nat) :
  (forall i, f i < f (S i)) ->
  ascending (map f (seq s n)) = true.
Proof.
  intros Hf. revert s. induction n as [|n IH]; intros s; [reflexivity|].
  cbn [seq map]. specialize (IH (S s)).
  destruct n as [|n]; [reflexivity|].
  cbn [seq map] in *. cbn [ascending]. cbn [ascending] in IH.
  apply andb_true_intro. split; [apply Z.ltb_lt, Hf|exact IH].
Qed.

Lemma range_ascending (a b : Z) : ascending (range a b) = true.
Proof. unfold range. apply ascending_from. intros i. lia. Qed.

Lemma In_range (a b x : Z) : In x (range a b) <-> a <= x < b.
Proof.
  unfold range. rewrite in_map_iff. split.
  - intros (i & <- & Hi). apply in_seq in Hi. lia.
  - intros H. exists (Z.to_nat (x - a)). split; [lia|]. apply in_seq. lia.
Qed.

(** X17. Plans run in order: the plan of every selection [run_phases]
    accepts is strictly ascending, so it names no phase twice; the plan of
    a range selection holds exactly the integers from its start to its end,
    and is empty when the end is below the start. *)
Theorem plans_are_ascending (phase_range : string) (plan : list Z) :
  phases_to_run phase_range = Returned plan ->
  ascending plan = true
  /\ (forall a b start end_,
         String.eqb (Text.lower phase_range) "all" = false ->
         Text.split "-" phase_range = [a; b] ->
         Text.int a = Some start -> Text.int b = Some end_ ->
         forall x, In x plan <-> start <= x <= end_).
Proof.
  unfold phases_to_run. intros H. split.
  - destruct (String.eqb (Text.lower phase_range) "all").
    + inversion H. reflexivity.
    + destruct (Text.contains "-" phase_range).
      * destruct (unpack_two (Text.split "-" phase_range)) as [[start end_]|e];
          [|discriminate H].
        inversion H. apply range_ascending.
      * destruct (Text.int phase_range); [|discriminate H]. inversion H. reflexivity.
  - intros a b start end_ Hall Hsplit Ha Hb x.
    rewrite Hall, Hsplit in H. unfold unpack_two in H. rewrite Ha, Hb in H.
    assert (Hc : Text.contains "-" phase_range = true).
    { clear - Hsplit. revert a b Hsplit.
      induction phase_range as [|c s IH]; intros a b H; [discriminate H|].
      cbn [Text.split Text.contains] in *.
      destruct (Ascii.eqb c "-"); [reflexivity|]. cbn [orb].
      destruct (Text.split "-" s) as [|x [|y [|z l]]] eqn:E; try discriminate H.
      now apply (IH x y). }
    rewrite Hc in H. inversion H. rewrite In_range. lia.
Qed.

Lemma plans_are_ascending_witness :
  forallb (fun x => (2 <=? x) && (x <=? 4)) [2; 3; 4] = true
  /\ ascending [2; 3; 4] = true.
Proof.
  split; [reflexivity|].
  exact (proj1 (plans_are_ascending "2-4" [2; 3; 4] eq_refl)).
Defined.

(** X18. A range that ends below its start runs nothing: for numbers
    [0 <= m < k], the selection "k-m" gives the empty plan, and [run_phases]
    leaves the store and the progress file as they are and creates no child
    process and no log file. *)
Theorem reversed_range_runs_nothing (w : World) (self : Orchestrator) (k m : Z) :
  0 <= m < k ->
  phases_to_run (Text.str k ++ "-" ++ Text.str m) = Returned []
  /\ results (snd (run_phases w (Text.str k ++ "-" ++ Text.str m) self)) = results self
  /\ progress_file (snd (run_phases w (Text.str k ++ "-" ++ Text.str m) self))
     = progress_file self
  /\ exists new,
       trace (snd (run_phases w (Text.str k ++ "-" ++ Text.str m) self))
       = (trace self ++ new)%list
       /\ forallb (fun ev => negb (spawns ev)) new = true.
Proof.
  intros Hkm.
  assert (Hplan : phases_to_run (Text.str k ++ "-" ++ Text.str m) = Returned []).
  { rewrite phases_to_run_range by lia. unfold range.
    now replace (Z.to_nat (m + 1 - k)) with 0%nat by lia. }
  split; [exact Hplan|].
  rewrite (run_phases_eq w _ [] self Hplan). cbn [run_loop]. unfold ret.
  rewrite generate_report_eq. unfold with_event.
  cbn [results progress_file trace ticks dry_run].
  destruct (forallb has_duration (filter (is_status COMPLETED) (results self)));
    cbn [snd results progress_file trace]; repeat split;
    rewrite <- ?app_assoc; eexists; (split; [reflexivity|reflexivity]).
Qed.

Lemma reversed_range_runs_nothing_witness :
  phases_to_run "5-2" = Returned [].
Proof.
  exact (proj1 (reversed_range_runs_nothing calm_world (fresh false) 5 2 ltac:(lia))).
Defined.

Lemma negative_selection (p : positive) :
  phases_to_run (resume_selection (Z.neg p)) = Raised (invalid_literal "").
Proof.
  unfold resume_selection.
  change (Text.str (Z.neg p)) with (String "-" (Text.digits (Pos.size_nat p) (Z.pos p))).
  pose proof (TextFacts.digits_all_digits (Pos.size_nat p) (Z.pos p) ltac:(lia)) as Hd.
  set (ds := Text.digits (Pos.size_nat p) (Z.pos p)) in *.
  change ("-" ++ Text.str (list_max 0 PHASES_keys))%string with (String "-" "7").
  change (String "-" ds ++ String "-" "7")%string with (String "-" (ds ++ String "-" "7")).
  unfold phases_to_run. cbn [Text.lower Text.contains Text.split String.eqb].
  change (Text.lower_char "-") with "-"%char.
  change (Ascii.eqb "-" "a") with false. change (Ascii.eqb "-" "-") with true.
  cbv iota. cbn [orb]. rewrite (TextFacts.split_digits_dash ds "7" Hd). reflexivity.
Qed.

(** X19. Resuming from a negative phase is fatal before anything runs: the
    selection [resume_from] builds for it begins with a dash, so its first
    part is empty and [int] raises [ValueError] on it; [main] prints the
    resume line and the fatal error, saves the store it loaded and exits
    with status 1; no phase is executed. *)
Theorem negative_resume_is_fatal (w : World) (args : Args) (file : option json)
    (s0 : Orchestrator) (k : Z) :
  k < 0 ->
  arg_resume_from args = Some k ->
  new_orchestrator w (arg_dry_run args) file = (Returned tt, s0) ->
  exit_code (main w args true file) = 1
  /\ exists s2 remaining msg data,
       final (main w args true file) = Some s2
       /\ results s2 = results s0
       /\ trace s2
          = (trace s0 ++ [Print (Resuming k remaining); Print (FatalError msg);
                          ProgressWritten data])%list.
Proof.
  intros Hk Hres H0. destruct k as [|p|p]; try lia.
  unfold main. rewrite Hres. cbn [truthy_int]. rewrite andb_false_r.
  cbn [negb]. rewrite H0. unfold controller. rewrite Hres. cbn [truthy_int].
  unfold resume_from, run_phases. rewrite negative_selection.
  unfold bind, emit, raise. rewrite save_progress_eq. cbv zeta.
  cbn [exit_code final snd results trace]. split; [reflexivity|].
  do 4 eexists. split; [reflexivity|]. split; [reflexivity|].
  rewrite <- !app_assoc. reflexivity.
Qed.

Lemma negative_resume_is_fatal_witness :
  exit_code (main calm_world (mkArgs None (Some (-2)) false) true None) = 1.
Proof.
  exact (proj1 (negative_resume_is_fatal calm_world (mkArgs None (Some (-2)) false) None
                  (fresh false) (-2) ltac:(lia) eq_refl eq_refl)).
Defined.

(** ** The report *)

Lemma count_by_status (rs : list PhaseResult) :
  (count_status PENDING rs + count_status IN_PROGRESS rs + count_status COMPLETED rs
   + count_status FAILED rs + count_status SKIPPED rs = List.length rs)%nat.
Proof.
  unfold count_status, is_status. induction rs as [|r rs IH]; [reflexivity|].
  cbn [filter List.length]. destruct (status r); cbn [PhaseStatus_eqb List.length]; lia.
Qed.

(** X20. The report counts the store.  [generate_report] never changes the
    store or the progress file.  It raises [TypeError], writing nothing,
    exactly when a completed record has no duration; otherwise it writes
    one report whose total is the number of records and whose completed,
    failed and skipped counts, with the records still pending or in
    progress, add up to that total. *)
Theorem report_counts_the_store (w : World) (self : Orchestrator) :
  results (snd (generate_report w self)) = results self
  /\ progress_file (snd (generate_report w self)) = progress_file self
  /\ (forallb has_duration (filter (is_status COMPLETED) (results self)) = false ->
      exists msg, generate_report w self = (Raised (TypeError msg), self))
  /\ (forallb has_duration (filter (is_status COMPLETED) (results self)) = true ->
      fst (generate_report w self) = Returned tt
      /\ exists path completed failed skipped,
           trace (snd (generate_report w self))
           = (trace self
              ++ [ReportWritten path (List.length (results self)) completed failed skipped
                    (results self)])%list
           /\ completed = count_status COMPLETED (results self)
           /\ failed = count_status FAILED (results self)
           /\ skipped = count_status SKIPPED (results self)
           /\ (completed + failed + skipped
               + count_status PENDING (results self)
               + count_status IN_PROGRESS (results self)
               = List.length (results self))%nat).
Proof.
  rewrite generate_report_eq.
  destruct (forallb has_duration (filter (is_status COMPLETED) (results self)));
    cbn [fst snd results progress_file trace];
    (split; [reflexivity|]); (split; [reflexivity|]); split.
  - intros H. discriminate H.
  - intros _. split; [reflexivity|]. do 4 eexists. split; [reflexivity|].
    split; [reflexivity|]. split; [reflexivity|]. split; [reflexivity|].
    pose proof (count_by_status (results self)). unfold count_status in *. lia.
  - intros _. eexists. reflexivity.
  - intros H. discriminate H.
Qed.

Lemma report_counts_the_store_witness :
  fst (generate_report calm_world (sample_store false)) = Returned tt.
Proof.
  exact (proj1 (proj2 (proj2 (proj2 (report_counts_the_store calm_world (sample_store false))))
                  eq_refl)).
Defined.
